(** * Integration configuration SDK: the event bus and the config session

    A shallow embedding of the two revisions of the SDK source kept in the
    repository: [src/index.ts] (module [Legacy]) and [src/unnamed/part_000]
    (module [Revised]).  Values are the run-time values of the TypeScript
    program (types are erased), objects passed by reference are never mutated
    in place by the SDK and are modelled as immutable trees.

    The functions the client application hands to the SDK are modelled as
    scripts of the session's public operations: they may register further
    handlers and watchers, read the configuration and emit, from inside a
    dispatch too, and they return normally. *)

From Stdlib Require Import List String Bool Arith ZArith Lia Floats DecimalString.
Import ListNotations.
Local Open Scope string_scope.
Local Open Scope list_scope.

Set Implicit Arguments.
Set Warnings "-register-all".

(** ** JavaScript values *)

(** [any]: what a [Config], a [payload] or an emitted datum is at run time. *)
Inductive JsValue : Type :=
| VUndefined
| VNull
| VBool (b : bool)
| VNum (n : float)
| VStr (s : string)
| VArr (items : list JsValue)
| VObj (props : list (string * JsValue)).

(** ToBoolean, as used by [||], [!] and [Boolean(...)]. *)
Definition truthy (v : JsValue) : bool :=
  match v with
  | VUndefined | VNull => false
  | VBool b => b
  | VNum n => negb (PrimFloat.is_zero n || PrimFloat.is_nan n)
  | VStr s => negb (String.eqb s "")
  | VArr _ | VObj _ => true
  end.

(** The engine's [Number.prototype.toString] is a service of the JavaScript
    run time; the SDK only calls it. *)
Class JsRuntime : Type := { Number_toString : float -> string }.

(** Errors the SDK can raise. *)
Inductive JsError : Type :=
| Error (message : string)
| ReferenceError (identifier : string).

(** ** [Array.prototype.forEach]

    As ECMAScript defines it: the length is read once, before the first
    call, and each index below it is then read from the live array.  The
    range of elements processed is thus set before the first call to
    [callbackfn]; elements appended after the pass began are not visited.
    The second component of the result lists the elements that were handed
    to [callbackfn], in call order. *)
Section ForEach.
Context {St A : Type}.
Variable arr : St -> list A.
Variable callbackfn : A -> St -> St.

Fixpoint forEach_from (k len : nat) (s : St) (visited : list A) : St * list A :=
  match len with
  | O => (s, visited)
  | S len' =>
      match nth_error (arr s) k with
      | Some a => forEach_from (S k) len' (callbackfn a s) (visited ++ [a])
      | None => forEach_from (S k) len' s visited
      end
  end.

Definition forEach (s : St) : St * list A :=
  forEach_from 0 (List.length (arr s)) s [].

(** [callbackfn] never shrinks or rewrites the array: it may only push. *)
Definition appends_only : Prop :=
  forall a s, exists added, arr (callbackfn a s) = arr s ++ added.
End ForEach.

(** ** Dashboard events *)

(** [KeysOfUnion<Config>] is [string | number]; a button's key is a string. *)
Inductive Key : Type :=
| KString (s : string)
| KNumber (n : float).

(** [KeyableSchemaItem | ButtonSchemaItem]: the SDK reads [key] only. *)
Record FieldRef : Type := { key : Key }.

Record DashboardEvent : Type := {
  event : string;
  field : option FieldRef;   (* [None] is [null] *)
  payload : JsValue
}.

(** [fieldKey === key] for a string [key]. *)
Definition key_is (k : Key) (s : string) : bool :=
  match k with
  | KString s' => String.eqb s' s
  | KNumber _ => false
  end.

(** ** class EventBus *)

Module EventBus.
Section Bus.
Context {H W : Type}.

Record t : Type := { handlers : list H }.

Definition new : t := {| handlers := [] |}.

Definition pushHandler (handler : H) (bus : t) : t :=
  {| handlers := handlers bus ++ [handler] |}.

(** What calling a handler on an event does to the bus and to the rest of
    the program state [W]. *)
Variable invoke : H -> DashboardEvent -> t * W -> t * W.

(** [trigger] returns the resulting state and the handlers it called. *)
Definition trigger (e : DashboardEvent) (s : t * W) : (t * W) * list H :=
  forEach (fun s => handlers (fst s)) (fun handler => invoke handler e) s.

(** Handlers reach the bus through [pushHandler] only. *)
Definition only_pushes : Prop :=
  forall h e s, exists added,
    handlers (fst (invoke h e s)) = handlers (fst s) ++ added.
End Bus.
Arguments t : clear implicits.
End EventBus.

(** ** The host side of the channel: Postmate's [ChildAPI] *)

(** [childApi.model], as the host filled it in at the handshake.  A field the
    host left out is [VUndefined]. *)
Record Model : Type := {
  model_config : JsValue;
  model_editMode : JsValue;
  model_code : JsValue
}.

(** One outbound message; [None] is an [emit] call without a data argument. *)
Definition Emission : Type := (string * option JsValue)%type.

Record ChildAPI : Type := {
  model : Model;
  exposed_savable : option bool;   (* the [savable] entry given to [Postmate.Model] *)
  emitted : list Emission
}.

Definition emit (name : string) (data : option JsValue) (p : ChildAPI) : ChildAPI :=
  {| model := model p;
     exposed_savable := exposed_savable p;
     emitted := emitted p ++ [(name, data)] |}.

(** ** The browser side: [document] and resize observers *)

(** [getBoundingClientRect()]: the two fields the SDK reads. *)
Record DOMRect : Type := { y : float; height : float }.

Record Document : Type := { body : option DOMRect }.

(** The global [document]: not declared at all (evaluating the identifier
    raises a ReferenceError), declared but [null]/[undefined], or a document. *)
Inductive DocumentBinding : Type :=
| Undeclared
| Bound (d : option Document).

Record Dom : Type := {
  document : DocumentBinding;
  observers : list bool   (* one entry per [ResizeObserver] created: still observing? *)
}.

Definition current_body (d : Dom) : option DOMRect :=
  match document d with
  | Bound (Some doc) => body doc
  | _ => None
  end.

(** ** Session state, for a client whose callbacks are scripts of [Act]s *)

Section Client.
Variable Act : Type.

(** A function of the client application: an identity, to tell calls apart
    in the log, and the operations it performs on the session when called.
    Client functions return normally. *)
Record Callback : Type := { cb_id : nat; cb_body : list Act }.

(** The two closures the SDK pushes on the bus. *)
Inductive EventHandler : Type :=
| StateUpdater                                                (* pushed by the constructor *)
| FieldWatcher (event key : string) (handler : Callback).     (* pushed by [on] *)

(** What the client application sees. *)
Inductive Obs : Type :=
| Called (cb : nat) (args : list JsValue)   (* a client function was called *)
| GotConfig (c : JsValue).                  (* [getConfig()] returned [c] to the client *)

Record ConfigSDK : Type := {
  parent : ChildAPI;
  config : JsValue;
  configWatchers : list Callback;
  editMode : bool;
  template : JsValue   (* revised source only; the legacy class has no such field *)
}.

Record World : Type := {
  sdk : ConfigSDK;
  dom : Dom;
  log : list Obs
}.

(** [eventBus] is an object of its own, shared by the session and by the
    [event] endpoint given to Postmate. *)
Definition Store : Type := (EventBus.t EventHandler * World)%type.

Definition with_sdk (f : ConfigSDK -> ConfigSDK) (s : Store) : Store :=
  (fst s, {| sdk := f (sdk (snd s)); dom := dom (snd s); log := log (snd s) |}).

Definition with_dom (f : Dom -> Dom) (s : Store) : Store :=
  (fst s, {| sdk := sdk (snd s); dom := f (dom (snd s)); log := log (snd s) |}).

Definition observe (o : Obs) (s : Store) : Store :=
  (fst s, {| sdk := sdk (snd s); dom := dom (snd s); log := log (snd s) ++ [o] |}).

Definition set_config (c : JsValue) (k : ConfigSDK) : ConfigSDK :=
  {| parent := parent k; config := c; configWatchers := configWatchers k;
     editMode := editMode k; template := template k |}.

Definition push_watcher (w : Callback) (k : ConfigSDK) : ConfigSDK :=
  {| parent := parent k; config := config k; configWatchers := configWatchers k ++ [w];
     editMode := editMode k; template := template k |}.

Definition parent_emit (name : string) (data : option JsValue) (s : Store) : Store :=
  with_sdk (fun k =>
    {| parent := emit name data (parent k); config := config k;
       configWatchers := configWatchers k; editMode := editMode k;
       template := template k |}) s.

(** *** Operations whose text is the same in both revisions *)

Definition getConfig (s : Store) : JsValue := config (sdk (snd s)).

Definition on (event key : string) (handler : Callback) (s : Store) : Store :=
  (EventBus.pushHandler (FieldWatcher event key handler) (fst s), snd s).

Definition onConfigUpdate (handler : Callback) (s : Store) : Store :=
  with_sdk (push_watcher handler) s.

Definition setHeight `{JsRuntime} (height : float) (s : Store) : Store :=
  parent_emit "set-height" (Some (VStr (Number_toString height))) s.

Definition setSchema (schema : JsValue) (s : Store) : Store :=
  parent_emit "set-schema" (Some schema) s.

(** *** Calling client functions, and the two bus handlers *)

Variable run_act : Act -> Store -> Store.

Definition call (f : Callback) (args : list JsValue) (s : Store) : Store :=
  fold_left (fun s a => run_act a s) (cb_body f) (observe (Called (cb_id f) args) s).

Definition stateUpdater (e : DashboardEvent) (s : Store) : Store :=
  if negb (String.eqb (event e) "set-config") then s
  else
    let s := with_sdk (set_config (payload e)) s in
    fst (forEach (fun s => configWatchers (sdk (snd s)))
                 (fun watcher s => call watcher [config (sdk (snd s))] s) s).

Definition fieldWatcher (event' key' : string) (handler : Callback)
           (candidateEvent : DashboardEvent) (s : Store) : Store :=
  if String.eqb (event candidateEvent) event'
     && match field candidateEvent with
        | Some f => key_is (key f) key'
        | None => false
        end
  then call handler [] s
  else s.

Definition invoke (h : EventHandler) (e : DashboardEvent) (s : Store) : Store :=
  match h with
  | StateUpdater => stateUpdater e s
  | FieldWatcher event' key' handler => fieldWatcher event' key' handler e s
  end.

(** The [event] endpoint registered with Postmate: [bus.trigger(event)]. *)
Definition receive (e : DashboardEvent) (s : Store) : Store :=
  fst (EventBus.trigger invoke e s).

(** The client functions called in a log, in order. *)
Definition calls (l : list Obs) : list (nat * list JsValue) :=
  flat_map (fun o => match o with Called cb args => [(cb, args)] | GotConfig _ => [] end) l.

(** The configurations read by the client in a log, in order. *)
Definition reads (l : list Obs) : list JsValue :=
  flat_map (fun o => match o with GotConfig c => [c] | Called _ _ => [] end) l.
End Client.

Arguments StateUpdater {Act}.
Arguments getConfig {Act} s.
Arguments with_sdk {Act} f s.
Arguments with_dom {Act} f s.
Arguments observe {Act} o s.
Arguments parent_emit {Act} name data s.
Arguments setSchema {Act} schema s.

Definition auto_resize_message : string :=
  "Auto-resize can only be enabled when a document (and body) is present".

(** [new ResizeObserver(...)] followed by [observer.observe(document.body)]. *)
Definition new_observer (d : Dom) : Dom :=
  {| document := document d; observers := observers d ++ [true] |}.

(** [observer.disconnect()] for the observer created [i]-th. *)
Fixpoint disconnect (i : nat) (os : list bool) : list bool :=
  match os, i with
  | [], _ => []
  | _ :: os', O => false :: os'
  | o :: os', S i' => o :: disconnect i' os'
  end.

(** The browser lays the body out anew: its bounding box becomes [r]. *)
Definition relayout (r : DOMRect) (d : Dom) : Dom :=
  match document d with
  | Bound (Some {| body := Some _ |}) =>
      {| document := Bound (Some {| body := Some r |}); observers := observers d |}
  | _ => d
  end.

(** ** The revised source, [src/unnamed/part_000] *)

Module Revised.
Section WithRuntime.
Context `{JsRuntime}.

(** The public operations a client function may perform.  Each returns
    normally; [enableAutoResize], which can raise, is a [Step] below. *)
Inductive Act : Type :=
| GetConfig
| On (event key : string) (handler : Callback Act)
| OnConfigUpdate (handler : Callback Act)
| SetHeight (height : float)
| SetConfig (config : JsValue)
| Save
| SetExternalId (id : string)
| SetSchema (schema : JsValue)
| SetSavable (savable : bool).

Definition constructor (childApi : ChildAPI) (eventBus : EventBus.t (EventHandler Act))
  : EventBus.t (EventHandler Act) * ConfigSDK Act :=
  (EventBus.pushHandler StateUpdater eventBus,
   {| parent := childApi;
      configWatchers := [];
      config := if truthy (model_config (model childApi))
                then model_config (model childApi) else VObj [];
      editMode := truthy (model_editMode (model childApi));
      template := model_code (model childApi) |}).

Definition calculateHeight (rect : DOMRect) : float :=
  (2 * y rect + height rect)%float.

(** On success the result carries the number of the observer that the
    returned clean-up function disconnects. *)
Definition enableAutoResize (s : Store Act) : JsError + Store Act * nat :=
  match document (dom (snd s)) with
  | Undeclared => inl (ReferenceError "document")
  | Bound None => inl (Error auto_resize_message)
  | Bound (Some {| body := None |}) => inl (Error auto_resize_message)
  | Bound (Some {| body := Some rect |}) =>
      let observer := List.length (observers (dom (snd s))) in
      let s := with_dom new_observer s in
      let s := setHeight (calculateHeight rect) s in
      inr (s, observer)
  end.

(** The callback given to [ResizeObserver].  [step] runs it only while
    the observed body is in the page. *)
Definition on_resize (s : Store Act) : Store Act :=
  match current_body (dom (snd s)) with
  | Some rect => setHeight (calculateHeight rect) s
  | None => s
  end.

Definition setConfig (config : JsValue) (s : Store Act) : Store Act :=
  parent_emit "update-config" (Some config) s.

Definition save (s : Store Act) : Store Act :=
  if negb (editMode (sdk (snd s))) then s
  else parent_emit "save" None s.

Definition setExternalId (id : string) (s : Store Act) : Store Act :=
  parent_emit "set-external-id" (Some (VStr id)) s.

Definition setSavable (savable : bool) (s : Store Act) : Store Act :=
  parent_emit "set-savable" (Some (VBool savable)) s.

Definition run_act (a : Act) (s : Store Act) : Store Act :=
  match a with
  | GetConfig => observe (GotConfig (getConfig s)) s
  | On event key handler => on event key handler s
  | OnConfigUpdate handler => onConfigUpdate handler s
  | SetHeight height => setHeight height s
  | SetConfig config => setConfig config s
  | Save => save s
  | SetExternalId id => setExternalId id s
  | SetSchema schema => setSchema schema s
  | SetSavable savable => setSavable savable s
  end.

(** [createSDK(savable)], once the handshake has resolved with the
    host's [model], in a page whose DOM is [d]. *)
Definition createSDK (savable : bool) (host : Model) (d : Dom) : Store Act :=
  let bus := EventBus.new in
  let '(bus, k) :=
    constructor {| model := host; exposed_savable := Some savable; emitted := [] |} bus in
  (bus, {| sdk := k; dom := d; log := [] |}).

(** What can happen to a session once it is connected. *)
Inductive Step : Type :=
| Call (a : Act)                  (* the application calls a public operation *)
| EnableAutoResize                (* the application calls [enableAutoResize()] *)
| CleanUp (observer : nat)        (* ... or a clean-up function it returned *)
| Receive (e : DashboardEvent)    (* the host calls the [event] endpoint *)
| BoxChange (r : DOMRect).        (* the browser reports a new body box *)

Definition notify_observers (s : Store Act) : Store Act :=
  fold_left (fun s (observing : bool) => if observing then on_resize s else s)
            (observers (dom (snd s))) s.

Definition step (s : Store Act) (t : Step) : Store Act :=
  match t with
  | Call a => run_act a s
  | EnableAutoResize =>
      match enableAutoResize s with
      | inl _ => s
      | inr (s', _) => s'
      end
  | CleanUp i =>
      with_dom (fun d => {| document := document d;
                            observers := disconnect i (observers d) |}) s
  | Receive e => receive run_act e s
  | BoxChange r =>
      match current_body (dom (snd s)) with
      | Some _ => notify_observers (with_dom (relayout r) s)
      | None => s
      end
  end.

Definition run (steps : list Step) (s : Store Act) : Store Act :=
  fold_left step steps s.
End WithRuntime.
End Revised.

(** ** The legacy source, [src/index.ts] *)

Module Legacy.
Section WithRuntime.
Context `{JsRuntime}.

Inductive Act : Type :=
| GetConfig
| On (event key : string) (handler : Callback Act)
| OnConfigUpdate (handler : Callback Act)
| SetHeight (height : float)
| SetConfig (config : JsValue)
| SetSchema (schema : JsValue).

Definition constructor (childApi : ChildAPI) (eventBus : EventBus.t (EventHandler Act))
  : EventBus.t (EventHandler Act) * ConfigSDK Act :=
  (EventBus.pushHandler StateUpdater eventBus,
   {| parent := childApi;
      configWatchers := [];
      config := if truthy (model_config (model childApi))
                then model_config (model childApi) else VObj [];
      editMode := truthy (model_editMode (model childApi));
      template := VUndefined |}).

Definition calculateHeight (rect : DOMRect) : float :=
  (y rect + height rect)%float.

Definition enableAutoResize (s : Store Act) : JsError + Store Act * nat :=
  match document (dom (snd s)) with
  | Undeclared => inl (ReferenceError "document")
  | Bound None => inl (Error auto_resize_message)
  | Bound (Some {| body := None |}) => inl (Error auto_resize_message)
  | Bound (Some {| body := Some rect |}) =>
      let observer := List.length (observers (dom (snd s))) in
      let s := with_dom new_observer s in
      let s := setHeight (calculateHeight rect) s in
      inr (s, observer)
  end.

Definition on_resize (s : Store Act) : Store Act :=
  match current_body (dom (snd s)) with
  | Some rect => setHeight (calculateHeight rect) s
  | None => s
  end.

Definition setConfig (config : JsValue) (s : Store Act) : Store Act :=
  parent_emit "save" (Some config) s.

Definition run_act (a : Act) (s : Store Act) : Store Act :=
  match a with
  | GetConfig => observe (GotConfig (getConfig s)) s
  | On event key handler => on event key handler s
  | OnConfigUpdate handler => onConfigUpdate handler s
  | SetHeight height => setHeight height s
  | SetConfig config => setConfig config s
  | SetSchema schema => setSchema schema s
  end.

Definition createSDK (host : Model) (d : Dom) : Store Act :=
  let bus := EventBus.new in
  let '(bus, k) :=
    constructor {| model := host; exposed_savable := None; emitted := [] |} bus in
  (bus, {| sdk := k; dom := d; log := [] |}).

Inductive Step : Type :=
| Call (a : Act)
| EnableAutoResize
| CleanUp (observer : nat)
| Receive (e : DashboardEvent)
| BoxChange (r : DOMRect).

Definition notify_observers (s : Store Act) : Store Act :=
  fold_left (fun s (observing : bool) => if observing then on_resize s else s)
            (observers (dom (snd s))) s.

Definition step (s : Store Act) (t : Step) : Store Act :=
  match t with
  | Call a => run_act a s
  | EnableAutoResize =>
      match enableAutoResize s with
      | inl _ => s
      | inr (s', _) => s'
      end
  | CleanUp i =>
      with_dom (fun d => {| document := document d;
                            observers := disconnect i (observers d) |}) s
  | Receive e => receive run_act e s
  | BoxChange r =>
      match current_body (dom (snd s)) with
      | Some _ => notify_observers (with_dom (relayout r) s)
      | None => s
      end
  end.

Definition run (steps : list Step) (s : Store Act) : Store Act :=
  fold_left step steps s.
End WithRuntime.
End Legacy.

(** ** Both revisions at once *)

Inductive Revision : Type := legacy | revised.

Definition Act_in (r : Revision) : Type :=
  match r with legacy => Legacy.Act | revised => Revised.Act end.

Definition Step_in (r : Revision) : Type :=
  match r with legacy => Legacy.Step | revised => Revised.Step end.

Section Revisions.
Context `{JsRuntime}.

Definition run_act_in (r : Revision) : Act_in r -> Store (Act_in r) -> Store (Act_in r) :=
  match r with legacy => Legacy.run_act | revised => Revised.run_act end.

(** The legacy [createSDK] takes no [savable] argument. *)
Definition createSDK_in (r : Revision) (savable : bool) : Model -> Dom -> Store (Act_in r) :=
  match r with legacy => Legacy.createSDK | revised => Revised.createSDK savable end.

Definition calculateHeight_in (r : Revision) : DOMRect -> float :=
  match r with legacy => Legacy.calculateHeight | revised => Revised.calculateHeight end.

Definition enableAutoResize_in (r : Revision)
  : Store (Act_in r) -> JsError + Store (Act_in r) * nat :=
  match r with legacy => Legacy.enableAutoResize | revised => Revised.enableAutoResize end.

Definition on_resize_in (r : Revision) : Store (Act_in r) -> Store (Act_in r) :=
  match r with legacy => Legacy.on_resize | revised => Revised.on_resize end.

Definition step_in (r : Revision) : Store (Act_in r) -> Step_in r -> Store (Act_in r) :=
  match r with legacy => Legacy.step | revised => Revised.step end.

Definition run_in (r : Revision) : list (Step_in r) -> Store (Act_in r) -> Store (Act_in r) :=
  match r with legacy => Legacy.run | revised => Revised.run end.
End Revisions.

Definition BoxChange_in (r : Revision) : DOMRect -> Step_in r :=
  match r with legacy => Legacy.BoxChange | revised => Revised.BoxChange end.

(** The event a step delivers, if it is a delivery from the host. *)
Definition received (r : Revision) : Step_in r -> option DashboardEvent :=
  match r with
  | legacy => fun t => match t with Legacy.Receive e => Some e | _ => None end
  | revised => fun t => match t with Revised.Receive e => Some e | _ => None end
  end.

(** No step of [steps] delivers a [set-config] event. *)
Definition no_config_push (r : Revision) (steps : list (Step_in r)) : Prop :=
  forall t e, In t steps -> received r t = Some e -> event e <> "set-config".

(** ** Vocabulary for the statements *)

Section Vocabulary.
Context {Act : Type}.

(** [s'] agrees with [s] on the component [proj]. *)
Definition same_on {X : Type} (proj : Store Act -> X) (s s' : Store Act) : Prop :=
  proj s' = proj s.

(** The list [proj] of [s'] is that of [s] with entries appended, all of
    them satisfying [P]. *)
Definition grown_by {X : Type} (P : X -> Prop) (proj : Store Act -> list X)
           (s s' : Store Act) : Prop :=
  exists added, proj s' = proj s ++ added /\ Forall P added.

Definition grown_on {X : Type} (proj : Store Act -> list X) : Store Act -> Store Act -> Prop :=
  grown_by (fun _ => True) proj.

Definition is_field_watcher (h : EventHandler Act) : Prop :=
  match h with FieldWatcher _ _ _ => True | StateUpdater => False end.

Definition handlers_of (s : Store Act) : list (EventHandler Act) :=
  EventBus.handlers (fst s).

Definition watchers_of (s : Store Act) : list (Callback Act) :=
  configWatchers (sdk (snd s)).

Definition emitted_of (s : Store Act) : list Emission :=
  emitted (parent (sdk (snd s))).

Definition log_of (s : Store Act) : list Obs := log (snd s).

Definition editMode_of (s : Store Act) : bool := editMode (sdk (snd s)).

(** The condition under which the closure pushed by [on event key _]
    calls its handler. *)
Definition matches (event' key' : string) (e : DashboardEvent) : Prop :=
  event e = event' /\ exists f, field e = Some f /\ key f = KString key'.

(** From [s] to [s'] the configuration stayed the same and every read by
    the client returned it. *)
Definition sees_current (s s' : Store Act) : Prop :=
  same_on getConfig s s'
  /\ grown_by (eq (getConfig s)) (fun s => reads (log_of s)) s s'.

(** What the proofs need to know of the operations open to client
    functions: they push, emit and read, and change nothing else. *)
Record frame_ok (run_act : Act -> Store Act -> Store Act) : Prop := {
  act_handlers : forall a s, grown_by is_field_watcher handlers_of s (run_act a s);
  act_watchers : forall a s, grown_on watchers_of s (run_act a s);
  act_editMode : forall a s, same_on editMode_of s (run_act a s);
  act_calls : forall a s, same_on (fun s => calls (log_of s)) s (run_act a s);
  act_reads : forall a s, sees_current s (run_act a s)
}.
End Vocabulary.

(** ** Data for the worked examples *)

(** An engine for the examples.  It prints the numbers they use, integers
    below 10^21, zero, the infinities and NaN, as JavaScript does; the
    examples use no other number, and it prints those as the empty string. *)
Definition print_integral (n : float) : string :=
  match Prim2SF n with
  | S754_zero _ => "0"
  | S754_infinity false => "Infinity"
  | S754_infinity true => "-Infinity"
  | S754_nan => "NaN"
  | S754_finite s m e =>
      let magnitude :=
        if (0 <=? e)%Z then Some (Z.pos m * 2 ^ e)%Z
        else if (Z.pos m mod 2 ^ (- e) =? 0)%Z then Some (Z.pos m / 2 ^ (- e))%Z
        else None in
      match magnitude with
      | Some z => if (z <? 10 ^ 21)%Z
                  then NilZero.string_of_int (Z.to_int (if s then - z else z))
                  else ""
      | None => ""
      end
  end.

Definition example_runtime : JsRuntime := {| Number_toString := print_integral |}.

Definition click (k : string) : DashboardEvent :=
  {| event := "click"; field := Some {| key := KString k |}; payload := VUndefined |}.

Definition set_config_to (c : JsValue) : DashboardEvent :=
  {| event := "set-config"; field := None; payload := c |}.

Definition a1 : JsValue := VObj [("a", VNum 1)].
Definition a1b2 : JsValue := VObj [("a", VNum 1); ("b", VNum 2)].

Definition example_host : Model :=
  {| model_config := a1b2; model_editMode := VBool true; model_code := VStr "template" |}.

Definition example_dom : Dom :=
  {| document := Bound (Some {| body := Some {| y := 10; height := 100 |} |});
     observers := [] |}.

Definition bare_dom : Dom := {| document := Bound (Some {| body := None |}); observers := [] |}.

Module RevisedExample.
Import Revised.

(** Client function 2 does nothing; client function 1 registers function 2
    for clicks on [my_button]; client function 3 reads the configuration. *)
Definition cb2 : Callback Act := {| cb_id := 2; cb_body := [] |}.
Definition cb1 : Callback Act := {| cb_id := 1; cb_body := [On "click" "my_button" cb2] |}.
Definition cb3 : Callback Act := {| cb_id := 3; cb_body := [GetConfig] |}.

Definition session : Store Act :=
  @createSDK true example_host example_dom.

Definition invoke_handler := invoke (@run_act example_runtime).
End RevisedExample.

(** ** enum SchemaFieldTypes *)

Inductive SchemaFieldTypes : Type :=
| ShortText | LongText | Number | Wysiwyg | Boolean | Select
| Button | Link | ApiKey | Html | Password.

(** The string each member is at run time. *)
Definition SchemaFieldTypes_value (t : SchemaFieldTypes) : string :=
  match t with
  | ShortText => "short_text"
  | LongText => "long_text"
  | Number => "number"
  | Wysiwyg => "wysiwyg"
  | Boolean => "boolean"
  | Select => "select"
  | Button => "button"
  | Link => "link"
  | ApiKey => "api_key"
  | Html => "html"
  | Password => "Password"
  end.

(** ** Further vocabulary *)

Definition EnableAutoResize_in (r : Revision) : Step_in r :=
  match r with legacy => Legacy.EnableAutoResize | revised => Revised.EnableAutoResize end.

Definition CleanUp_in (r : Revision) : nat -> Step_in r :=
  match r with legacy => Legacy.CleanUp | revised => Revised.CleanUp end.

Section MoreVocabulary.
Context {Act : Type}.

(** What the constructor copies from the handshake and the handshake itself. *)
Definition handshake_of (s : Store Act) : JsValue * Model * option bool :=
  (template (sdk (snd s)), model (parent (sdk (snd s))),
   exposed_savable (parent (sdk (snd s)))).

(** The observers that have not been disconnected. *)
Definition observing (s : Store Act) : list bool :=
  filter (fun o => o) (observers (dom (snd s))).

(** The closure [h] does nothing on event [e]: it is the state-updater and
    [e] is not [set-config], or it was pushed by [on] for another event
    name or field key. *)
Definition deaf_to (e : DashboardEvent) (h : EventHandler Act) : Prop :=
  match h with
  | StateUpdater => event e <> "set-config"
  | FieldWatcher event' key' _ => ~ matches event' key' e
  end.
End MoreVocabulary.

Definition is_string (v : JsValue) : bool :=
  match v with VStr _ => true | _ => false end.

Definition is_boolean (v : JsValue) : bool :=
  match v with VBool _ => true | _ => false end.

(** The messages a session of each revision can send: name and kind of
    datum. *)
Definition message_in (r : Revision) (m : Emission) : bool :=
  let (name, data) := m in
  match r, data with
  | revised, None => String.eqb name "save"
  | revised, Some v =>
      (String.eqb name "set-height" && is_string v)
      || String.eqb name "update-config"
      || (String.eqb name "set-external-id" && is_string v)
      || String.eqb name "set-schema"
      || (String.eqb name "set-savable" && is_boolean v)
  | legacy, None => false
  | legacy, Some v =>
      (String.eqb name "set-height" && is_string v)
      || String.eqb name "save"
      || String.eqb name "set-schema"
  end.

(** Every message sent so far is one the revision can send. *)
Definition well_formed (r : Revision) (s : Store (Act_in r)) : Prop :=
  forallb (message_in r) (emitted_of s) = true.

(** A session of the revised source that is not in edit mode and has sent no
    message named [save]. *)
Definition never_saved (s : Store (Act_in revised)) : Prop :=
  editMode_of s = false /\ Forall (fun m : Emission => fst m <> "save") (emitted_of s).

(** The configuration a step delivers, if it is a delivery of [set-config]. *)
Definition pushed_config (r : Revision) (t : Step_in r) : option JsValue :=
  match received r t with
  | Some e => if String.eqb (event e) "set-config" then Some (payload e) else None
  | None => None
  end.

(** The configuration delivered last in a run, if any was. *)
Fixpoint last_push (r : Revision) (steps : list (Step_in r)) : option JsValue :=
  match steps with
  | [] => None
  | t :: rest =>
      match last_push r rest with
      | Some c => Some c
      | None => pushed_config r t
      end
  end.

(** * Properties *)

(** ** [forEach] over an array that only grows *)

Section ForEachFacts.
Context {St A : Type}.
Variable arr : St -> list A.
Variable callbackfn : A -> St -> St.

Hypothesis grows : appends_only arr callbackfn.

Lemma slice_cons (l : list A) (k len : nat) (a : A) :
  nth_error l k = Some a ->
  firstn (S len) (skipn k l) = a :: firstn len (skipn (S k) l).
Proof.
  revert k; induction l as [|x l IH]; intros [|k] Hk; simpl in *; try discriminate.
  - now inversion Hk.
  - now apply IH.
Qed.

Lemma slice_app (l added : list A) (k len : nat) :
  k + len <= List.length l ->
  firstn len (skipn k (l ++ added)) = firstn len (skipn k l).
Proof.
  intros Hle.
  rewrite skipn_app, firstn_app.
  replace (len - List.length (skipn k l)) with 0 by (rewrite length_skipn; lia).
  simpl; now rewrite app_nil_r.
Qed.

Lemma forEach_from_slice (len k : nat) (s : St) (visited : list A) :
  k + len <= List.length (arr s) ->
  forEach_from arr callbackfn k len s visited =
    (fold_left (fun s a => callbackfn a s) (firstn len (skipn k (arr s))) s,
     visited ++ firstn len (skipn k (arr s))).
Proof.
  revert k s visited; induction len as [|len IH]; intros k s visited Hle;
    cbn [forEach_from].
  - simpl; now rewrite app_nil_r.
  - destruct (nth_error (arr s) k) as [a|] eqn:Hk.
    + destruct (grows a s) as [added Hadd].
      rewrite IH by (rewrite Hadd, length_app; lia).
      rewrite Hadd, slice_app by lia.
      erewrite slice_cons by eassumption; simpl.
      now rewrite <- app_assoc.
    + apply nth_error_None in Hk; lia.
Qed.

(** The pass is the sequential run over the elements present at its start. *)
Lemma forEach_snapshot (s : St) :
  forEach arr callbackfn s = (fold_left (fun s a => callbackfn a s) (arr s) s, arr s).
Proof.
  unfold forEach.
  rewrite forEach_from_slice by lia.
  simpl; now rewrite firstn_all.
Qed.

Lemma fold_appends (l : list A) (s : St) :
  exists added, arr (fold_left (fun s a => callbackfn a s) l s) = arr s ++ added.
Proof.
  revert s; induction l as [|a l IH]; intros s; simpl.
  - exists []; now rewrite app_nil_r.
  - destruct (IH (callbackfn a s)) as [more Hmore], (grows a s) as [added Hadd].
    exists (added ++ more); now rewrite Hmore, Hadd, app_assoc.
Qed.
End ForEachFacts.

(** ** Relations between a store and a later one *)

Section Relations.
Context {Act : Type}.
Implicit Types s : Store Act.

Lemma same_on_refl {X} (proj : Store Act -> X) s : same_on proj s s.
Proof. reflexivity. Qed.

Lemma same_on_trans {X} (proj : Store Act -> X) s1 s2 s3 :
  same_on proj s1 s2 -> same_on proj s2 s3 -> same_on proj s1 s3.
Proof. unfold same_on; congruence. Qed.

Lemma grown_by_refl {X} (P : X -> Prop) proj s : grown_by P proj s s.
Proof. exists []; split; [now rewrite app_nil_r | constructor]. Qed.

Lemma grown_by_trans {X} (P : X -> Prop) proj s1 s2 s3 :
  grown_by P proj s1 s2 -> grown_by P proj s2 s3 -> grown_by P proj s1 s3.
Proof.
  intros [l1 [E1 F1]] [l2 [E2 F2]]; exists (l1 ++ l2); split.
  - now rewrite E2, E1, app_assoc.
  - apply Forall_app; now split.
Qed.

(** A reflexive, transitive relation that every call of [f] respects is
    respected by a sequential run and by a [forEach] pass. *)
Section Closure.
Context {A : Type}.
Variable Rel : Store Act -> Store Act -> Prop.
Hypothesis Rel_refl : forall s, Rel s s.
Hypothesis Rel_trans : forall s1 s2 s3, Rel s1 s2 -> Rel s2 s3 -> Rel s1 s3.
Variable f : A -> Store Act -> Store Act.
Hypothesis Rel_f : forall a s, Rel s (f a s).

Lemma fold_left_rel (l : list A) s : Rel s (fold_left (fun s a => f a s) l s).
Proof.
  revert s; induction l as [|a l IH]; intros s; simpl; [apply Rel_refl|].
  eapply Rel_trans; [apply Rel_f | apply IH].
Qed.

Lemma forEach_from_rel (arr : Store Act -> list A) len k s visited :
  Rel s (fst (forEach_from arr f k len s visited)).
Proof.
  revert k s visited; induction len as [|len IH]; intros k s visited; simpl;
    [apply Rel_refl|].
  destruct (nth_error (arr s) k); [|apply IH].
  eapply Rel_trans; [apply Rel_f | apply IH].
Qed.

Lemma forEach_rel (arr : Store Act -> list A) s : Rel s (fst (forEach arr f s)).
Proof. apply forEach_from_rel. Qed.
End Closure.
End Relations.

(** ** The bus handlers of a session *)

Ltac unchanged :=
  first [ reflexivity
        | exists []; split;
          [ unfold log_of, reads, calls; simpl;
            rewrite ?flat_map_app; simpl; now rewrite ?app_nil_r
          | constructor ] ].

Section SessionFacts.
Context {Act : Type}.
Variable run_act : Act -> Store Act -> Store Act.
Hypothesis ok : frame_ok run_act.
Implicit Types s : Store Act.

Section Respected.
Variable Rel : Store Act -> Store Act -> Prop.
Hypothesis Rel_refl : forall s, Rel s s.
Hypothesis Rel_trans : forall s1 s2 s3, Rel s1 s2 -> Rel s2 s3 -> Rel s1 s3.
Hypothesis Rel_act : forall a s, Rel s (run_act a s).
Hypothesis Rel_called : forall cb args s, Rel s (observe (Called cb args) s).

Lemma call_rel f args s : Rel s (call run_act f args s).
Proof.
  unfold call.
  eapply Rel_trans; [apply Rel_called|].
  now apply fold_left_rel.
Qed.

Lemma fieldWatcher_rel ev k h e s : Rel s (fieldWatcher run_act ev k h e s).
Proof.
  unfold fieldWatcher.
  destruct (_ && _); [apply call_rel | apply Rel_refl].
Qed.

Hypothesis Rel_set_config : forall c s, Rel s (with_sdk (set_config c) s).

Lemma stateUpdater_rel e s : Rel s (stateUpdater run_act e s).
Proof.
  unfold stateUpdater; cbv zeta.
  destruct (negb _); [apply Rel_refl|].
  eapply Rel_trans; [apply Rel_set_config|].
  apply (@forEach_rel _ _ Rel Rel_refl Rel_trans
           (fun watcher s => call run_act watcher [config (sdk (snd s))] s)).
  intros w s'; apply call_rel.
Qed.

Lemma invoke_rel h e s : Rel s (invoke run_act h e s).
Proof. destruct h; [apply stateUpdater_rel | apply fieldWatcher_rel]. Qed.

Lemma receive_rel e s : Rel s (receive run_act e s).
Proof.
  unfold receive, EventBus.trigger.
  apply (@forEach_rel _ _ Rel Rel_refl Rel_trans (fun h s => invoke run_act h e s)).
  intros h s'; apply invoke_rel.
Qed.
End Respected.

Lemma invoke_pushes_field_watchers h e s :
  grown_by is_field_watcher handlers_of s (invoke run_act h e s).
Proof.
  apply (invoke_rel (grown_by is_field_watcher handlers_of));
    [apply grown_by_refl | apply grown_by_trans | apply (act_handlers ok) | | ];
    intros; unchanged.
Qed.

Lemma invoke_only_pushes : EventBus.only_pushes (invoke run_act).
Proof.
  intros h e s.
  destruct (invoke_pushes_field_watchers h e s) as [added [E _]].
  now exists added.
Qed.

Lemma call_pushes_watchers f args s : grown_on watchers_of s (call run_act f args s).
Proof.
  apply (call_rel (grown_on watchers_of));
    [apply grown_by_refl | apply grown_by_trans | apply (act_watchers ok) | ];
    intros; unchanged.
Qed.

Lemma call_keeps_config f args s : getConfig (call run_act f args s) = getConfig s.
Proof.
  apply (call_rel (same_on getConfig));
    [apply same_on_refl | apply same_on_trans | intros; apply (act_reads ok) | ];
    intros; unchanged.
Qed.

Lemma receive_keeps_editMode e s : editMode_of (receive run_act e s) = editMode_of s.
Proof.
  apply (receive_rel (same_on editMode_of));
    [apply same_on_refl | apply same_on_trans | apply (act_editMode ok) | | ];
    intros; unchanged.
Qed.

Lemma receive_pushes_field_watchers e s :
  grown_by is_field_watcher handlers_of s (receive run_act e s).
Proof.
  apply (receive_rel (grown_by is_field_watcher handlers_of));
    [apply grown_by_refl | apply grown_by_trans | apply (act_handlers ok) | | ];
    intros; unchanged.
Qed.

(** A dispatch is the sequential run of the handlers on the bus at its start. *)
Lemma receive_snapshot e s :
  receive run_act e s = fold_left (fun s h => invoke run_act h e s) (handlers_of s) s.
Proof.
  unfold receive, EventBus.trigger.
  rewrite forEach_snapshot; [reflexivity|].
  intros h s'; apply invoke_only_pushes.
Qed.

Lemma call_calls f args s :
  calls (log_of (call run_act f args s)) = calls (log_of s) ++ [(cb_id f, args)].
Proof.
  unfold call.
  rewrite (fold_left_rel (same_on (fun s => calls (log_of s))));
    [ | apply same_on_refl | apply same_on_trans | apply (act_calls ok) ].
  unfold log_of, calls; simpl.
  now rewrite flat_map_app.
Qed.

Lemma sees_current_refl s : sees_current s s.
Proof. split; unchanged. Qed.

Lemma sees_current_trans s1 s2 s3 :
  sees_current s1 s2 -> sees_current s2 s3 -> sees_current s1 s3.
Proof.
  intros [C1 G1] [C2 G2]; split; [eapply same_on_trans; eassumption|].
  eapply grown_by_trans; [exact G1|].
  now rewrite <- C1.
Qed.

Lemma call_sees_current f args s : sees_current s (call run_act f args s).
Proof.
  apply (call_rel sees_current);
    [apply sees_current_refl | apply sees_current_trans | apply (act_reads ok) | ].
  intros; split; unchanged.
Qed.

Lemma fold_calls_config args (l : list (Callback Act)) s :
  getConfig (fold_left (fun s w => call run_act w args s) l s) = getConfig s.
Proof.
  apply (fold_left_rel (same_on getConfig) (@same_on_refl _ _ _) (@same_on_trans _ _ _)
           (fun w s => call run_act w args s)).
  intros w s'; apply call_keeps_config.
Qed.

Lemma fold_calls_calls args (l : list (Callback Act)) s :
  calls (log_of (fold_left (fun s w => call run_act w args s) l s))
  = calls (log_of s) ++ map (fun w => (cb_id w, args)) l.
Proof.
  revert s; induction l as [|w l IH]; intros s; simpl; [now rewrite app_nil_r|].
  now rewrite IH, call_calls, <- app_assoc.
Qed.

(** [this.config], read anew for each watcher, is the same value every time. *)
Lemma fold_calls_fixed c (l : list (Callback Act)) s :
  getConfig s = c ->
  fold_left (fun s w => call run_act w [config (sdk (snd s))] s) l s
  = fold_left (fun s w => call run_act w [c] s) l s.
Proof.
  revert s; induction l as [|w l IH]; intros s Hc; simpl; [reflexivity|].
  rewrite IH by (now rewrite call_keeps_config).
  unfold getConfig in Hc; now rewrite Hc.
Qed.

Lemma stateUpdater_replaces e s :
  event e = "set-config" ->
  stateUpdater run_act e s
  = fold_left (fun s w => call run_act w [payload e] s) (watchers_of s)
              (with_sdk (set_config (payload e)) s).
Proof.
  intros He; unfold stateUpdater; rewrite He; simpl negb; cbv iota zeta.
  rewrite forEach_snapshot
    by (intros w s';
        destruct (call_pushes_watchers w [config (sdk (snd s'))] s') as [added [E _]];
        now exists added).
  simpl fst.
  now rewrite (fold_calls_fixed (c := payload e)).
Qed.

Lemma stateUpdater_ignores e s :
  event e <> "set-config" -> stateUpdater run_act e s = s.
Proof.
  intros He; unfold stateUpdater.
  destruct (String.eqb_spec (event e) "set-config"); [contradiction | reflexivity].
Qed.

Lemma invoke_sees_current h e s :
  getConfig s = payload e -> sees_current s (invoke run_act h e s).
Proof.
  intros Hc; destruct h as [|ev k f]; simpl.
  - destruct (String.eqb_spec (event e) "set-config") as [He|He].
    + rewrite (stateUpdater_replaces e s He).
      apply sees_current_trans with (with_sdk (set_config (payload e)) s).
      * split; [exact (eq_sym Hc) | unchanged].
      * apply (fold_left_rel sees_current sees_current_refl sees_current_trans
                 (fun w s => call run_act w [payload e] s)).
        intros w s'; apply call_sees_current.
    + rewrite (stateUpdater_ignores e s He); apply sees_current_refl.
  - apply (fieldWatcher_rel sees_current);
      [apply sees_current_refl | apply sees_current_trans | apply (act_reads ok) | ].
    intros; split; unchanged.
Qed.

Lemma fold_invoke_sees_current e (l : list (EventHandler Act)) s :
  getConfig s = payload e ->
  sees_current s (fold_left (fun s h => invoke run_act h e s) l s).
Proof.
  revert s; induction l as [|h l IH]; intros s Hc; simpl; [apply sees_current_refl|].
  pose proof (invoke_sees_current h e s Hc) as Hh.
  eapply sees_current_trans; [exact Hh|].
  apply IH; destruct Hh as [Hk _]; unfold same_on in Hk; congruence.
Qed.
End SessionFacts.

(** ** The operations of each revision keep within their frame *)

Ltac pushed x :=
  exists [x]; split;
  [ unfold log_of, reads, calls; simpl; rewrite ?flat_map_app; reflexivity
  | repeat constructor ].

Ltac frame_case :=
  unfold grown_on;
  first [ unchanged
        | split; unchanged
        | unfold same_on, log_of, calls; simpl;
          rewrite flat_map_app; simpl; now rewrite app_nil_r
        | match goal with
          | |- grown_by _ _ _ (on ?e ?k ?h _) => pushed (FieldWatcher e k h)
          | |- grown_by _ _ _ (onConfigUpdate ?h _) => pushed h
          | |- sees_current ?s (observe (GotConfig _) _) =>
              split; [reflexivity | pushed (getConfig s)]
          end ].

Section RevisionFrames.
Context `{JsRuntime}.

Lemma revised_frame_ok : frame_ok Revised.run_act.
Proof.
  split; intros a s; destruct a; simpl;
    unfold Revised.save; try destruct (negb _); frame_case.
Qed.

Lemma legacy_frame_ok : frame_ok Legacy.run_act.
Proof. split; intros a s; destruct a; simpl; frame_case. Qed.

Lemma frame_ok_in (r : Revision) : frame_ok (run_act_in r).
Proof. destruct r; [apply legacy_frame_ok | apply revised_frame_ok]. Qed.
End RevisionFrames.

(** ** Steps of a connected session *)

Section StepFacts.
Context `{JsRuntime}.
Variable r : Revision.
Variable Rel : Store (Act_in r) -> Store (Act_in r) -> Prop.
Hypothesis Rel_refl : forall s, Rel s s.
Hypothesis Rel_trans : forall s1 s2 s3, Rel s1 s2 -> Rel s2 s3 -> Rel s1 s3.
Hypothesis Rel_act : forall a s, Rel s (run_act_in r a s).
Variable deliverable : DashboardEvent -> Prop.
Hypothesis Rel_receive : forall e s, deliverable e -> Rel s (receive (run_act_in r) e s).
Hypothesis Rel_emit : forall name data s, Rel s (parent_emit name data s).
Hypothesis Rel_dom : forall f s, Rel s (with_dom f s).

Lemma enableAutoResize_rel s :
  match enableAutoResize_in r s with
  | inl _ => True
  | inr (s', _) => Rel s s'
  end.
Proof.
  destruct r; simpl;
    unfold Legacy.enableAutoResize, Revised.enableAutoResize;
    match goal with
    | |- context [document ?d] => destruct (document d) as [|[[[rect|]]|]]
    end; trivial;
    (eapply Rel_trans; [apply Rel_dom | apply Rel_emit]).
Qed.

Lemma on_resize_rel s : Rel s (on_resize_in r s).
Proof.
  destruct r; simpl; unfold Legacy.on_resize, Revised.on_resize;
    destruct (current_body _); auto; apply Rel_emit.
Qed.

Lemma step_rel s t :
  (forall e, received r t = Some e -> deliverable e) -> Rel s (step_in r s t).
Proof.
  pose proof (enableAutoResize_rel s) as Hauto.
  pose proof on_resize_rel as Hresize.
  destruct r; simpl in *; destruct t as [a| |i|e|rect]; simpl; intros Hd.
  all: try apply Rel_act; try apply Rel_dom.
  all: try (apply Rel_receive, Hd; reflexivity).
  all: try (match goal with
            | |- Rel _ (match ?x with inl _ => _ | inr _ => _ end) =>
                destruct x as [|[]]; [apply Rel_refl | exact Hauto]
            end).
  all: destruct (current_body _); [|apply Rel_refl];
    (eapply Rel_trans; [apply Rel_dom|]);
    unfold Legacy.notify_observers, Revised.notify_observers;
    apply (fold_left_rel Rel Rel_refl Rel_trans
             (fun (observing : bool) s => if observing then _ s else s));
    intros [|] s'; [apply Hresize | apply Rel_refl].
Qed.

Lemma run_rel steps s :
  (forall t e, In t steps -> received r t = Some e -> deliverable e) ->
  Rel s (run_in r steps s).
Proof.
  assert (Hfold : forall steps s,
             (forall t e, In t steps -> received r t = Some e -> deliverable e) ->
             Rel s (fold_left (step_in r) steps s)).
  { intros l; induction l as [|t l IH]; intros s0 Hd; simpl; [apply Rel_refl|].
    eapply Rel_trans.
    - apply step_rel; intros e; apply Hd; now left.
    - apply IH; intros t' e Hin; apply Hd; now right. }
  destruct r; apply Hfold.
Qed.
End StepFacts.

(** ** The event bus *)

Section EventBusFacts.
Context {H W : Type}.
Variable invoke : H -> DashboardEvent -> EventBus.t H * W -> EventBus.t H * W.
Hypothesis pushes : EventBus.only_pushes invoke.

Lemma trigger_snapshot e s :
  EventBus.trigger invoke e s
  = (fold_left (fun s h => invoke h e s) (EventBus.handlers (fst s)) s,
     EventBus.handlers (fst s)).
Proof.
  unfold EventBus.trigger.
  rewrite forEach_snapshot; [reflexivity|].
  intros h s'; apply pushes.
Qed.

Lemma trigger_grows e s :
  exists pushed,
    EventBus.handlers (fst (fst (EventBus.trigger invoke e s)))
    = EventBus.handlers (fst s) ++ pushed.
Proof.
  rewrite trigger_snapshot; simpl.
  apply (fold_appends (arr := fun s => EventBus.handlers (fst s))
                      (callbackfn := fun h s => invoke h e s)).
  intros h s'; apply pushes.
Qed.
End EventBusFacts.

Lemma pushHandler_all {H : Type} (registered : list H) (bus : EventBus.t H) :
  EventBus.handlers (fold_left (fun b h => EventBus.pushHandler h b) registered bus)
  = EventBus.handlers bus ++ registered.
Proof.
  revert bus; induction registered as [|h l IH]; intros bus; simpl.
  - now rewrite app_nil_r.
  - now rewrite IH; simpl; rewrite <- app_assoc.
Qed.

(** C2.  Whatever handlers were pushed on a bus, in whatever order, one
    [trigger] call calls exactly those handlers, each once per registration,
    in the order of their registration: the calls it makes are the list of
    registered handlers, and its effect is that of running them one after
    the other.  Handlers are any functions that reach the bus through
    [pushHandler], the one way of changing it that [EventBus] offers. *)
Theorem trigger_calls_registered_handlers_in_order
  {H W : Type} (invoke : H -> DashboardEvent -> EventBus.t H * W -> EventBus.t H * W)
  (pushes : EventBus.only_pushes invoke)
  (bus : EventBus.t H) (registered : list H) (e : DashboardEvent) (w : W) :
  let s := (fold_left (fun b h => EventBus.pushHandler h b) registered bus, w) in
  snd (EventBus.trigger invoke e s) = EventBus.handlers bus ++ registered
  /\ fst (EventBus.trigger invoke e s)
     = fold_left (fun s h => invoke h e s) (EventBus.handlers bus ++ registered) s.
Proof.
  intros s.
  rewrite trigger_snapshot by assumption; unfold s; simpl.
  now rewrite pushHandler_all.
Qed.

(** C3.  The handlers pushed while a [trigger] pass runs, from inside the
    handlers it calls, are not called in that pass, which calls the handlers
    present at its start and no other; the next pass calls them too. *)
Theorem handlers_pushed_during_trigger_wait_for_next
  {H W : Type} (invoke : H -> DashboardEvent -> EventBus.t H * W -> EventBus.t H * W)
  (pushes : EventBus.only_pushes invoke)
  (e e' : DashboardEvent) (s : EventBus.t H * W) :
  exists pushed,
    EventBus.handlers (fst (fst (EventBus.trigger invoke e s)))
    = EventBus.handlers (fst s) ++ pushed
    /\ snd (EventBus.trigger invoke e s) = EventBus.handlers (fst s)
    /\ snd (EventBus.trigger invoke e' (fst (EventBus.trigger invoke e s)))
       = EventBus.handlers (fst s) ++ pushed.
Proof.
  destruct (trigger_grows pushes e s) as [pushed Hp].
  exists pushed; split; [exact Hp|]; split.
  - now rewrite trigger_snapshot.
  - now rewrite (trigger_snapshot pushes e'), <- Hp.
Qed.

Lemma trigger_calls_registered_handlers_in_order_witness :
  EventBus.only_pushes RevisedExample.invoke_handler
  /\ snd (EventBus.trigger RevisedExample.invoke_handler (click "my_button")
            (fold_left (fun b h => EventBus.pushHandler h b)
                       [StateUpdater; FieldWatcher "click" "my_button" RevisedExample.cb1]
                       EventBus.new,
             snd RevisedExample.session))
     = [StateUpdater; FieldWatcher "click" "my_button" RevisedExample.cb1].
Proof.
  split.
  - apply invoke_only_pushes, revised_frame_ok.
  - apply (trigger_calls_registered_handlers_in_order
             (invoke_only_pushes (@revised_frame_ok example_runtime))
             EventBus.new
             [StateUpdater; FieldWatcher "click" "my_button" RevisedExample.cb1]
             (click "my_button") (snd RevisedExample.session)).
Defined.

Lemma handlers_pushed_during_trigger_wait_for_next_witness :
  EventBus.only_pushes RevisedExample.invoke_handler
  /\ exists pushed,
      let s := on "click" "my_button" RevisedExample.cb1 RevisedExample.session in
      let e := click "my_button" in
      EventBus.handlers (fst (fst (EventBus.trigger RevisedExample.invoke_handler e s)))
      = EventBus.handlers (fst s) ++ pushed
      /\ snd (EventBus.trigger RevisedExample.invoke_handler e s) = EventBus.handlers (fst s)
      /\ snd (EventBus.trigger RevisedExample.invoke_handler e
                (fst (EventBus.trigger RevisedExample.invoke_handler e s)))
         = EventBus.handlers (fst s) ++ pushed.
Proof.
  split.
  - apply invoke_only_pushes, revised_frame_ok.
  - apply handlers_pushed_during_trigger_wait_for_next, invoke_only_pushes, revised_frame_ok.
Defined.

(** The example of the specification: handler 1 registers handler 2 from
    inside its body.  The first click calls 1 only; the second calls 1, then 2. *)
Example registered_while_dispatching :
  let s0 := on "click" "my_button" RevisedExample.cb1 RevisedExample.session in
  let s1 := receive (@Revised.run_act example_runtime) (click "my_button") s0 in
  let s2 := receive (@Revised.run_act example_runtime) (click "my_button") s1 in
  calls (log_of s1) = [(1, [])]
  /\ handlers_of s1 = [StateUpdater;
                       FieldWatcher "click" "my_button" RevisedExample.cb1;
                       FieldWatcher "click" "my_button" RevisedExample.cb2]
  /\ calls (log_of s2) = [(1, []); (1, []); (2, [])].
Proof. repeat split. Qed.

(** ** Connected sessions *)

Section Sessions.
Context `{JsRuntime}.
Variable r : Revision.

Lemma step_keeps_editMode s t : editMode_of (step_in r s t) = editMode_of s.
Proof.
  apply (step_rel r (same_on editMode_of) (@same_on_refl _ _ _) (@same_on_trans _ _ _)
           (act_editMode (frame_ok_in r)) (fun _ => True));
    [ intros e s' _; apply (receive_keeps_editMode (frame_ok_in r)) | .. ];
    intros; try unchanged; trivial.
Qed.

Lemma run_keeps_editMode steps s : editMode_of (run_in r steps s) = editMode_of s.
Proof.
  apply (run_rel r (same_on editMode_of) (@same_on_refl _ _ _) (@same_on_trans _ _ _)
           (act_editMode (frame_ok_in r)) (fun _ => True));
    [ intros e s' _; apply (receive_keeps_editMode (frame_ok_in r)) | .. ];
    intros; try unchanged; trivial.
Qed.

Lemma run_pushes_field_watchers steps s :
  grown_by is_field_watcher handlers_of s (run_in r steps s).
Proof.
  apply (run_rel r (grown_by is_field_watcher handlers_of)
           (@grown_by_refl _ _ _ _) (@grown_by_trans _ _ _ _)
           (act_handlers (frame_ok_in r)) (fun _ => True));
    [ intros e s' _; apply (receive_pushes_field_watchers (frame_ok_in r)) | .. ];
    intros; try unchanged; trivial.
Qed.

Lemma createSDK_handlers savable host d :
  handlers_of (createSDK_in r savable host d) = [StateUpdater].
Proof. destruct r; reflexivity. Qed.

Lemma createSDK_editMode savable host d :
  editMode_of (createSDK_in r savable host d) = truthy (model_editMode host).
Proof. destruct r; reflexivity. Qed.

(** The state-updater stays first on the bus; whatever follows it was pushed
    by [on]. *)
Lemma session_handlers savable host d steps :
  exists fws,
    handlers_of (run_in r steps (createSDK_in r savable host d)) = StateUpdater :: fws
    /\ Forall is_field_watcher fws.
Proof.
  destruct (run_pushes_field_watchers steps (createSDK_in r savable host d))
    as [fws [E F]].
  exists fws; split; [|exact F].
  now rewrite E, createSDK_handlers.
Qed.

Lemma invoke_keeps_config_unless h e s :
  event e <> "set-config" -> getConfig (invoke (run_act_in r) h e s) = getConfig s.
Proof.
  intros He; destruct h as [|ev k f]; simpl.
  - now rewrite (stateUpdater_ignores (run_act_in r) e s He).
  - unfold fieldWatcher; destruct (_ && _); [|reflexivity].
    apply call_keeps_config, frame_ok_in.
Qed.

Lemma receive_keeps_config_unless e s :
  event e <> "set-config" -> getConfig (receive (run_act_in r) e s) = getConfig s.
Proof.
  intros He.
  rewrite (receive_snapshot (frame_ok_in r)).
  apply (fold_left_rel (same_on getConfig) (@same_on_refl _ _ _) (@same_on_trans _ _ _)
           (fun h s => invoke (run_act_in r) h e s)).
  intros h s'; now apply invoke_keeps_config_unless.
Qed.

(** Only a delivery of [set-config] changes the local configuration. *)
Lemma run_keeps_config_unless steps s :
  no_config_push r steps -> getConfig (run_in r steps s) = getConfig s.
Proof.
  intros Hno.
  apply (run_rel r (same_on getConfig) (@same_on_refl _ _ _) (@same_on_trans _ _ _)
           (fun a s => proj1 (act_reads (frame_ok_in r) a s))
           (fun e => event e <> "set-config"));
    [ intros e s'; apply receive_keeps_config_unless | .. | exact Hno ];
    intros; unchanged.
Qed.

Lemma stateUpdater_config e s :
  event e = "set-config" -> getConfig (stateUpdater (run_act_in r) e s) = payload e.
Proof.
  intros He.
  rewrite (stateUpdater_replaces (frame_ok_in r) e s He).
  now rewrite (fold_calls_config (frame_ok_in r)).
Qed.

Lemma stateUpdater_calls e s :
  event e = "set-config" ->
  calls (log_of (stateUpdater (run_act_in r) e s))
  = calls (log_of s) ++ map (fun w => (cb_id w, [payload e])) (watchers_of s).
Proof.
  intros He.
  rewrite (stateUpdater_replaces (frame_ok_in r) e s He).
  now rewrite (fold_calls_calls (frame_ok_in r)).
Qed.

(** In a dispatch of [set-config] on a bus headed by the state-updater, the
    other handlers run after it, on the new configuration. *)
Lemma receive_after_stateUpdater e s rest :
  handlers_of s = StateUpdater :: rest ->
  event e = "set-config" ->
  receive (run_act_in r) e s
  = fold_left (fun s h => invoke (run_act_in r) h e s) rest (stateUpdater (run_act_in r) e s)
  /\ sees_current (stateUpdater (run_act_in r) e s) (receive (run_act_in r) e s).
Proof.
  intros Hh He.
  rewrite (receive_snapshot (frame_ok_in r)), Hh; simpl.
  split; [reflexivity|].
  apply fold_invoke_sees_current; [apply frame_ok_in|].
  now apply stateUpdater_config.
Qed.
End Sessions.

(** ** The state-updater *)

(** C1.  In both revisions the handler pushed by the constructor acts on a
    [set-config] event and on no other.  On [set-config] it replaces the
    whole local configuration by the payload and then calls the watchers
    registered at that time, in registration order, each with the payload;
    after the dispatch [getConfig()] is the payload.  On any other event it
    leaves the store as it was, and the dispatch leaves the configuration
    as it was. *)
Theorem state_updater_replaces_config_and_calls_watchers
  `{JsRuntime} (r : Revision) (e : DashboardEvent) (s : Store (Act_in r))
  (savable : bool) (host : Model) (d : Dom) (steps : list (Step_in r)) :
  let session := run_in r steps (createSDK_in r savable host d) in
  (event e = "set-config" ->
     stateUpdater (run_act_in r) e s
     = fold_left (fun s w => call (run_act_in r) w [payload e] s) (watchers_of s)
                 (with_sdk (set_config (payload e)) s)
     /\ calls (log_of (stateUpdater (run_act_in r) e s))
        = calls (log_of s) ++ map (fun w => (cb_id w, [payload e])) (watchers_of s)
     /\ getConfig (stateUpdater (run_act_in r) e s) = payload e
     /\ getConfig (receive (run_act_in r) e session) = payload e)
  /\ (event e <> "set-config" ->
        stateUpdater (run_act_in r) e s = s
        /\ getConfig (receive (run_act_in r) e session) = getConfig session).
Proof.
  intros session; split; intros He.
  - repeat split.
    + apply stateUpdater_replaces; [apply frame_ok_in | exact He].
    + now apply stateUpdater_calls.
    + now apply stateUpdater_config.
    + destruct (session_handlers r savable host d steps) as [fws [Hh _]].
      destruct (receive_after_stateUpdater r e _ Hh He) as [_ [Hc _]].
      unfold same_on in Hc; fold session in Hc; rewrite Hc.
      now apply stateUpdater_config.
  - split.
    + apply stateUpdater_ignores; exact He.
    + now apply receive_keeps_config_unless.
Qed.

Lemma state_updater_replaces_config_and_calls_watchers_witness :
  let run_act := @Revised.run_act example_runtime in
  let s := onConfigUpdate RevisedExample.cb3
             (onConfigUpdate RevisedExample.cb2 RevisedExample.session) in
  (event (set_config_to a1) = "set-config" /\ event (click "my_button") <> "set-config")
  /\ getConfig s = a1b2
  /\ calls (log_of (stateUpdater run_act (set_config_to a1) s)) = [(2, [a1]); (3, [a1])]
  /\ reads (log_of (stateUpdater run_act (set_config_to a1) s)) = [a1]
  /\ getConfig (receive run_act (set_config_to a1) s) = a1
  /\ stateUpdater run_act (click "my_button") s = s
  /\ getConfig (receive run_act (click "my_button") s) = a1b2.
Proof.
  pose proof (@state_updater_replaces_config_and_calls_watchers example_runtime revised
                (set_config_to a1)
                (onConfigUpdate RevisedExample.cb3
                   (onConfigUpdate RevisedExample.cb2 RevisedExample.session))
                true example_host example_dom
                [Revised.Call (Revised.OnConfigUpdate RevisedExample.cb2);
                 Revised.Call (Revised.OnConfigUpdate RevisedExample.cb3)]) as [Hset _].
  pose proof (@state_updater_replaces_config_and_calls_watchers example_runtime revised
                (click "my_button")
                (onConfigUpdate RevisedExample.cb3
                   (onConfigUpdate RevisedExample.cb2 RevisedExample.session))
                true example_host example_dom
                [Revised.Call (Revised.OnConfigUpdate RevisedExample.cb2);
                 Revised.Call (Revised.OnConfigUpdate RevisedExample.cb3)]) as [_ Hother].
  assert (Hne : event (click "my_button") <> "set-config") by discriminate.
  destruct (Hset eq_refl) as [_ [Hcalls [_ Hget]]].
  destruct (Hother Hne) as [Hsame Hkeep].
  cbv zeta.
  split; [split; [reflexivity | exact Hne] |].
  split; [reflexivity|].
  split; [exact Hcalls|].
  split; [reflexivity|].
  split; [exact Hget|].
  split; [exact Hsame | exact Hkeep].
Defined.

(** The example of the specification: full replacement, not a merge. *)
Example set_config_is_not_a_merge :
  getConfig RevisedExample.session = VObj [("a", VNum 1); ("b", VNum 2)]
  /\ getConfig (receive (@Revised.run_act example_runtime)
                  {| event := "set-config"; field := None;
                     payload := VObj [("a", VNum 1)] |}
                  RevisedExample.session)
     = VObj [("a", VNum 1)]
  /\ getConfig (receive (@Legacy.run_act example_runtime)
                  {| event := "set-config"; field := None;
                     payload := VObj [("a", VNum 1)] |}
                  (@Legacy.createSDK example_host example_dom))
     = VObj [("a", VNum 1)].
Proof. repeat split. Qed.

(** ** Field watchers *)

Lemma key_is_spec (k : Key) (s : string) : key_is k s = true <-> k = KString s.
Proof.
  destruct k as [s'|n]; simpl.
  - rewrite String.eqb_eq; split; [now intros -> | now intros [= ->]].
  - split; discriminate.
Qed.

Lemma fieldWatcher_condition (ev k : string) (e : DashboardEvent) :
  String.eqb (event e) ev
  && match field e with Some f => key_is (key f) k | None => false end = true
  <-> matches ev k e.
Proof.
  unfold matches; rewrite andb_true_iff, String.eqb_eq.
  destruct (field e) as [f|].
  - rewrite key_is_spec; split.
    + intros [He Hk]; split; [exact He | now exists f].
    + intros [He [f' [[= <-] Hk]]]; now split.
  - split; [intros [_ Hf]; discriminate | intros [_ [f [Hf _]]]; discriminate].
Qed.

(** C4.  In both revisions, once [on(eventName, fieldKey, handler)] has been
    called, the closure it pushed stays on the bus, and every later dispatch
    runs that closure exactly once, at its place in registration order.  The
    closure calls [handler], with no argument, if and only if the event's
    name is [eventName], its field is not null and the field's key is
    [fieldKey]; otherwise it does nothing. *)
Theorem on_handler_called_iff_event_and_field_key_match
  `{JsRuntime} (r : Revision) (eventName fieldKey : string) (handler : Callback (Act_in r))
  (s : Store (Act_in r)) (steps : list (Step_in r)) (e : DashboardEvent) :
  let s1 := run_in r steps (on eventName fieldKey handler s) in
  let run h s := invoke (run_act_in r) h e s in
  (exists later,
      handlers_of s1 = handlers_of s ++ FieldWatcher eventName fieldKey handler :: later
      /\ receive (run_act_in r) e s1
         = fold_left (fun s h => run h s) later
             (fieldWatcher (run_act_in r) eventName fieldKey handler e
                (fold_left (fun s h => run h s) (handlers_of s) s1)))
  /\ forall s',
      (matches eventName fieldKey e ->
         fieldWatcher (run_act_in r) eventName fieldKey handler e s'
         = call (run_act_in r) handler [] s'
         /\ calls (log_of (call (run_act_in r) handler [] s'))
            = calls (log_of s') ++ [(cb_id handler, [])])
      /\ (~ matches eventName fieldKey e ->
            fieldWatcher (run_act_in r) eventName fieldKey handler e s' = s').
Proof.
  intros s1 run; split.
  - destruct (run_pushes_field_watchers r steps (on eventName fieldKey handler s))
      as [later [Hh _]].
    exists later.
    assert (Hs1 : handlers_of s1
                  = handlers_of s ++ FieldWatcher eventName fieldKey handler :: later).
    { unfold s1; rewrite Hh; unfold on, handlers_of; simpl.
      now rewrite <- app_assoc. }
    split; [exact Hs1|].
    rewrite (receive_snapshot (frame_ok_in r)), Hs1.
    now rewrite fold_left_app.
  - intros s'; unfold fieldWatcher; split; intros Hm.
    + apply fieldWatcher_condition in Hm; rewrite Hm.
      split; [reflexivity | apply call_calls, frame_ok_in].
    + destruct (_ && _) eqn:Hc; [|reflexivity].
      apply fieldWatcher_condition in Hc; contradiction.
Qed.

Lemma on_handler_called_iff_event_and_field_key_match_witness :
  let run_act := @Revised.run_act example_runtime in
  (matches "click" "my_button" (click "my_button")
   /\ ~ matches "click" "my_button" (click "other"))
  /\ calls (log_of (fieldWatcher run_act "click" "my_button" RevisedExample.cb2
                      (click "my_button") RevisedExample.session))
     = [(2, [])]
  /\ fieldWatcher run_act "click" "my_button" RevisedExample.cb2
       (click "other") RevisedExample.session
     = RevisedExample.session.
Proof.
  assert (Hyes : matches "click" "my_button" (click "my_button")).
  { split; [reflexivity|]. eexists; split; reflexivity. }
  assert (Hno : ~ matches "click" "my_button" (click "other")).
  { intros [_ [f [Hf Hk]]]. injection Hf as <-. discriminate Hk. }
  pose proof (@on_handler_called_iff_event_and_field_key_match example_runtime revised
                "click" "my_button" RevisedExample.cb2 RevisedExample.session []
                (click "my_button")) as [_ Hclick].
  pose proof (@on_handler_called_iff_event_and_field_key_match example_runtime revised
                "click" "my_button" RevisedExample.cb2 RevisedExample.session []
                (click "other")) as [_ Hother].
  destruct (Hclick RevisedExample.session) as [Hcalled _].
  destruct (Hother RevisedExample.session) as [_ Hskipped].
  destruct (Hcalled Hyes) as [Heq Hcalls].
  cbv zeta.
  split; [split; [exact Hyes | exact Hno] |].
  split; [|exact (Hskipped Hno)].
  exact (eq_trans (f_equal (fun x => calls (log_of x)) Heq) Hcalls).
Defined.

(** The four dispatches of the specification, after
    [on('click', 'my_button', cb)]: only the first calls [cb]. *)
Example on_click_my_button :
  let run_act := @Revised.run_act example_runtime in
  let s := on "click" "my_button" RevisedExample.cb2 RevisedExample.session in
  let dispatched e := calls (log_of (receive run_act e s)) in
  dispatched {| event := "click"; field := Some {| key := KString "my_button" |};
                payload := VNull |} = [(2, [])]
  /\ dispatched {| event := "click"; field := Some {| key := KString "other" |};
                   payload := VNull |} = []
  /\ dispatched {| event := "other"; field := Some {| key := KString "my_button" |};
                   payload := VNull |} = []
  /\ dispatched {| event := "click"; field := None; payload := VNull |} = [].
Proof. repeat split. Qed.

(** ** Outbound operations *)

(** C5.  [save()] of the revised source: with [editMode] false the store is
    left exactly as it was, so nothing is emitted and nothing else changes;
    with [editMode] true the call emits one message, named [save], with no
    data argument. *)
Theorem save_emits_only_in_edit_mode `{JsRuntime} (s : Store Revised.Act) :
  (editMode_of s = false -> Revised.save s = s)
  /\ (editMode_of s = true ->
        Revised.save s = parent_emit "save" None s
        /\ emitted_of (Revised.save s) = emitted_of s ++ [("save", None)]).
Proof.
  unfold Revised.save, editMode_of; split; intros ->; simpl; [reflexivity|].
  split; reflexivity.
Qed.

Lemma save_emits_only_in_edit_mode_witness :
  let editing := RevisedExample.session in
  let creating := @Revised.createSDK true
                    {| model_config := a1; model_editMode := VBool false;
                       model_code := VStr "template" |} example_dom in
  (editMode_of creating = false /\ editMode_of editing = true)
  /\ @Revised.save creating = creating
  /\ emitted_of (@Revised.save editing) = [("save", None)].
Proof.
  cbv zeta.
  split; [split; reflexivity|].
  split.
  - apply (@save_emits_only_in_edit_mode example_runtime); reflexivity.
  - apply (@save_emits_only_in_edit_mode example_runtime RevisedExample.session); reflexivity.
Defined.

(** C6.  [setConfig(p)] emits exactly one message carrying [p] (named
    [update-config] in the revised source and [save] in the legacy one) and
    leaves the local configuration as it was; the local configuration then
    stays the same through every later step until the host delivers a
    [set-config] event. *)
Theorem setConfig_emits_request_and_keeps_mirror `{JsRuntime} (p : JsValue) :
  (forall (s : Store Revised.Act) (steps : list (Step_in revised)),
      emitted_of (Revised.setConfig p s) = emitted_of s ++ [("update-config", Some p)]
      /\ getConfig (Revised.setConfig p s) = getConfig s
      /\ (no_config_push revised steps ->
          getConfig (run_in revised steps (Revised.setConfig p s)) = getConfig s))
  /\ (forall (s : Store Legacy.Act) (steps : list (Step_in legacy)),
         emitted_of (Legacy.setConfig p s) = emitted_of s ++ [("save", Some p)]
         /\ getConfig (Legacy.setConfig p s) = getConfig s
         /\ (no_config_push legacy steps ->
             getConfig (run_in legacy steps (Legacy.setConfig p s)) = getConfig s)).
Proof.
  split; intros s steps; (split; [reflexivity|]); (split; [reflexivity|]); intros Hno.
  - now rewrite (@run_keeps_config_unless _ revised steps _ Hno).
  - now rewrite (@run_keeps_config_unless _ legacy steps _ Hno).
Qed.

Lemma setConfig_emits_request_and_keeps_mirror_witness :
  let steps := [Revised.Call Revised.GetConfig;
                Revised.Receive (click "my_button");
                Revised.EnableAutoResize] in
  let s := @Revised.setConfig a1 RevisedExample.session in
  no_config_push revised steps
  /\ emitted_of s = [("update-config", Some a1)]
  /\ getConfig s = a1b2
  /\ getConfig (@run_in example_runtime revised steps s) = a1b2.
Proof.
  cbv zeta.
  assert (Hno : no_config_push revised
                  [Revised.Call Revised.GetConfig;
                   Revised.Receive (click "my_button");
                   Revised.EnableAutoResize]).
  { intros t e [<-|[<-|[<-|[]]]] He; try discriminate He.
    injection He as <-; discriminate. }
  destruct (proj1 (@setConfig_emits_request_and_keeps_mirror example_runtime a1)
              RevisedExample.session
              [Revised.Call Revised.GetConfig;
               Revised.Receive (click "my_button");
               Revised.EnableAutoResize]) as [Hemit [Hkeep Hlater]].
  split; [exact Hno|].
  split; [exact Hemit|].
  split; [exact Hkeep | exact (Hlater Hno)].
Defined.

(** ** Auto-resize *)

(** C7.  Where there is no document, or a document without a body,
    [enableAutoResize()] raises at once: the [Error] of the source when
    [document] is declared, the engine's ReferenceError for the identifier
    when it is not.  Nothing has happened by then: the store is as before the
    call, with no observer created and no message emitted. *)
Theorem enableAutoResize_throws_without_body `{JsRuntime} :
  (forall s : Store Revised.Act,
      current_body (dom (snd s)) = None ->
      Revised.enableAutoResize s
      = inl match document (dom (snd s)) with
            | Undeclared => ReferenceError "document"
            | Bound _ => Error auto_resize_message
            end
      /\ Revised.step s Revised.EnableAutoResize = s)
  /\ (forall s : Store Legacy.Act,
         current_body (dom (snd s)) = None ->
         Legacy.enableAutoResize s
         = inl match document (dom (snd s)) with
               | Undeclared => ReferenceError "document"
               | Bound _ => Error auto_resize_message
               end
         /\ Legacy.step s Legacy.EnableAutoResize = s).
Proof.
  split; intros s; unfold current_body; simpl;
    unfold Revised.enableAutoResize, Legacy.enableAutoResize;
    destruct (document (dom (snd s))) as [|[[[rect|]]|]]; intros Hb;
    try discriminate Hb; split; reflexivity.
Qed.

Lemma enableAutoResize_throws_without_body_witness :
  let s := @Revised.createSDK true example_host bare_dom in
  current_body (dom (snd s)) = None
  /\ @Revised.enableAutoResize example_runtime s = inl (Error auto_resize_message)
  /\ @Revised.step example_runtime s Revised.EnableAutoResize = s.
Proof.
  cbv zeta; split; [reflexivity|].
  apply (proj1 (@enableAutoResize_throws_without_body example_runtime)
           (@Revised.createSDK true example_host bare_dom)).
  reflexivity.
Defined.

(** The three ways of having no body, and a page that has one. *)
Example enableAutoResize_by_environment :
  let page d := @Revised.createSDK true example_host {| document := d; observers := [] |} in
  let try_in d := @Revised.enableAutoResize example_runtime (page d) in
  try_in Undeclared = inl (ReferenceError "document")
  /\ try_in (Bound None) = inl (Error auto_resize_message)
  /\ try_in (Bound (Some {| body := None |})) = inl (Error auto_resize_message)
  /\ exists s', try_in (Bound (Some {| body := Some {| y := 10; height := 100 |} |}))
                = inr (s', 0)
                /\ observers (dom (snd s')) = [true]
                /\ emitted_of s'
                   = [("set-height", Some (VStr "120"))].
Proof.
  cbv zeta; repeat (split; [reflexivity|]).
  eexists; split; [reflexivity|]; split; reflexivity.
Qed.

Lemma notify_reports {Act : Type} (on_resize : Store Act -> Store Act)
      (report : Emission) (rect : DOMRect) :
  (forall s, current_body (dom (snd s)) = Some rect ->
             emitted_of (on_resize s) = emitted_of s ++ [report]
             /\ dom (snd (on_resize s)) = dom (snd s)) ->
  forall (l : list bool) s,
    current_body (dom (snd s)) = Some rect ->
    emitted_of (fold_left (fun s (observing : bool) => if observing then on_resize s else s) l s)
    = emitted_of s ++ map (fun _ => report) (filter (fun observing => observing) l).
Proof.
  intros Hf l; induction l as [|[|] l IH]; intros s Hb; simpl.
  - now rewrite app_nil_r.
  - destruct (Hf s Hb) as [He Hd].
    rewrite IH by (now rewrite Hd).
    now rewrite He, <- app_assoc.
  - now apply IH.
Qed.

Lemma on_resize_reports `{JsRuntime} (r : Revision) (s : Store (Act_in r)) (rect : DOMRect) :
  current_body (dom (snd s)) = Some rect ->
  emitted_of (on_resize_in r s)
  = emitted_of s ++ [("set-height", Some (VStr (Number_toString (calculateHeight_in r rect))))]
  /\ dom (snd (on_resize_in r s)) = dom (snd s).
Proof.
  intros Hb; destruct r; simpl in *; unfold Legacy.on_resize, Revised.on_resize;
    rewrite Hb; split; reflexivity.
Qed.

Lemma relayout_body (rect : DOMRect) (d : Dom) :
  current_body d <> None ->
  current_body (relayout rect d) = Some rect /\ observers (relayout rect d) = observers d.
Proof.
  unfold current_body, relayout.
  destruct (document d) as [|[[[old|]]|]]; intros Hb; try contradiction; split; reflexivity.
Qed.

(** C8, as the sources have it.  While auto-resize is on, every height
    reported, the one sent at once by [enableAutoResize()] and the one each
    observer sends when the body box changes, is [calculateHeight] of the
    current body box, printed by the engine.  In the revised source that is
    twice the top offset plus the box height; in the legacy source it is the
    top offset plus the box height. *)
Theorem auto_resize_reports_calculated_height
  `{JsRuntime} (r : Revision) (s : Store (Act_in r)) (rect next : DOMRect) :
  current_body (dom (snd s)) = Some rect ->
  let report box :=
    ("set-height", Some (VStr (Number_toString (calculateHeight_in r box)))) in
  (exists s' observer,
      enableAutoResize_in r s = inr (s', observer)
      /\ emitted_of s' = emitted_of s ++ [report rect])
  /\ emitted_of (on_resize_in r s) = emitted_of s ++ [report rect]
  /\ emitted_of (step_in r s (BoxChange_in r next))
     = emitted_of s
       ++ map (fun _ => report next)
              (filter (fun observing => observing) (observers (dom (snd s))))
  /\ calculateHeight_in revised rect = (2 * y rect + height rect)%float
  /\ calculateHeight_in legacy rect = (y rect + height rect)%float.
Proof.
  intros Hb report.
  split; [|split; [|split; [|split; reflexivity]]].
  - unfold current_body in Hb.
    destruct r; simpl in *; unfold Legacy.enableAutoResize, Revised.enableAutoResize;
      destruct (document (dom (snd s))) as [|[[[old|]]|]]; try discriminate Hb;
      injection Hb as ->; eexists; eexists; split; reflexivity.
  - now apply on_resize_reports.
  - assert (Hsome : current_body (dom (snd s)) <> None) by (rewrite Hb; discriminate).
    destruct (relayout_body next (dom (snd s)) Hsome) as [Hnext Hobs].
    pose proof (@notify_reports _ (on_resize_in r) (report next) next
                  (fun s0 => @on_resize_reports _ r s0 next)
                  (observers (dom (snd s))) (with_dom (relayout next) s) Hnext) as Hn.
    destruct r; simpl in *; rewrite Hb;
      unfold Legacy.notify_observers, Revised.notify_observers; simpl;
      rewrite Hobs; exact Hn.
Qed.

(** The legacy source does not double the top offset: for a body box at
    offset 10 and of height 100 it reports 110, where twice the offset plus
    the height is 120. *)
Lemma legacy_height_not_doubled :
  let rect := {| y := 10; height := 100 |} in
  calculateHeight_in legacy rect <> (2 * y rect + height rect)%float
  /\ emitted_of (@Legacy.run example_runtime [Legacy.EnableAutoResize]
                   (@Legacy.createSDK example_host example_dom))
     = [("set-height", Some (VStr "110"))]
  /\ @Number_toString example_runtime (2 * y rect + height rect)%float = "120".
Proof.
  cbv zeta; split; [|split; reflexivity].
  intros E.
  apply (f_equal (fun x => PrimFloat.eqb x 120)) in E.
  vm_compute in E; discriminate E.
Qed.

Lemma auto_resize_reports_calculated_height_witness :
  let rect := {| y := 10; height := 100 |} in
  let s := RevisedExample.session in
  current_body (dom (snd s)) = Some rect
  /\ (exists s' observer,
         @Revised.enableAutoResize example_runtime s = inr (s', observer)
         /\ emitted_of s' = [("set-height", Some (VStr "120"))])
  /\ emitted_of (@Revised.on_resize example_runtime s) = [("set-height", Some (VStr "120"))].
Proof.
  cbv zeta; split; [reflexivity|].
  destruct (@auto_resize_reports_calculated_height example_runtime revised
              RevisedExample.session {| y := 10; height := 100 |}
              {| y := 10; height := 100 |} eq_refl) as [Hfirst [Hlater _]].
  split; [exact Hfirst | exact Hlater].
Defined.

(** The same page under each revision: enable auto-resize, then let the body
    box move to offset 8 and height 50. *)
Example heights_reported_by_each_revision :
  let next := {| y := 8; height := 50 |} in
  emitted_of (@Revised.run example_runtime
                [Revised.EnableAutoResize; Revised.BoxChange next]
                (@Revised.createSDK true example_host example_dom))
  = [("set-height", Some (VStr "120")); ("set-height", Some (VStr "66"))]
  /\ emitted_of (@Legacy.run example_runtime
                   [Legacy.EnableAutoResize; Legacy.BoxChange next]
                   (@Legacy.createSDK example_host example_dom))
     = [("set-height", Some (VStr "110")); ("set-height", Some (VStr "58"))].
Proof. split; reflexivity. Qed.

(** ** Session invariants *)

(** C9.  In both revisions [editMode] is what the constructor made of the
    host's model, [Boolean(model.editMode)], and no step of a connected
    session changes it: no public operation, no clean-up call, no dispatch
    of an inbound event, no resize notification. *)
Theorem editMode_fixed_at_construction
  `{JsRuntime} (r : Revision) (savable : bool) (host : Model) (d : Dom)
  (steps : list (Step_in r)) :
  editMode_of (createSDK_in r savable host d) = truthy (model_editMode host)
  /\ editMode_of (run_in r steps (createSDK_in r savable host d))
     = truthy (model_editMode host)
  /\ forall (s : Store (Act_in r)) (t : Step_in r),
      editMode_of (step_in r s t) = editMode_of s.
Proof.
  split; [apply createSDK_editMode|]; split.
  - now rewrite run_keeps_editMode, createSDK_editMode.
  - apply step_keeps_editMode.
Qed.

(** C10.  In a session made by [createSDK], in either revision, the bus
    holds the state-updater first and after it only closures pushed by [on].
    A dispatch of [set-config] therefore first runs the state-updater, which
    replaces the configuration and calls every watcher, and only then the
    closures of [on]; from then to the end of the dispatch the configuration
    stays the payload and every [getConfig()] by the client returns it. *)
Theorem state_updater_runs_before_on_handlers
  `{JsRuntime} (r : Revision) (savable : bool) (host : Model) (d : Dom)
  (steps : list (Step_in r)) (e : DashboardEvent) :
  let s := run_in r steps (createSDK_in r savable host d) in
  let updated := stateUpdater (run_act_in r) e s in
  exists pushed_by_on,
    handlers_of s = StateUpdater :: pushed_by_on
    /\ Forall is_field_watcher pushed_by_on
    /\ (event e = "set-config" ->
          receive (run_act_in r) e s
          = fold_left (fun s h => invoke (run_act_in r) h e s) pushed_by_on updated
          /\ getConfig updated = payload e
          /\ calls (log_of updated)
             = calls (log_of s) ++ map (fun w => (cb_id w, [payload e])) (watchers_of s)
          /\ sees_current updated (receive (run_act_in r) e s)).
Proof.
  intros s updated.
  destruct (session_handlers r savable host d steps) as [fws [Hh Hf]].
  exists fws; split; [exact Hh|]; split; [exact Hf|]; intros He.
  destruct (receive_after_stateUpdater r e _ Hh He) as [Hrun Hsees].
  split; [exact Hrun|]; split; [now apply stateUpdater_config|].
  split; [now apply stateUpdater_calls | exact Hsees].
Qed.

Lemma state_updater_runs_before_on_handlers_witness :
  let run_act := @Revised.run_act example_runtime in
  let e := {| event := "set-config"; field := Some {| key := KString "form" |};
              payload := a1 |} in
  let s := on "set-config" "form" RevisedExample.cb3
              (onConfigUpdate RevisedExample.cb2 RevisedExample.session) in
  event e = "set-config"
  /\ getConfig s = a1b2
  /\ getConfig (stateUpdater run_act e s) = a1
  /\ sees_current (stateUpdater run_act e s) (receive run_act e s)
  /\ calls (log_of (receive run_act e s)) = [(2, [a1]); (3, [])]
  /\ reads (log_of (receive run_act e s)) = [a1].
Proof.
  cbv zeta.
  destruct (@state_updater_runs_before_on_handlers example_runtime revised
              true example_host example_dom
              [Revised.Call (Revised.OnConfigUpdate RevisedExample.cb2);
               Revised.Call (Revised.On "set-config" "form" RevisedExample.cb3)]
              {| event := "set-config"; field := Some {| key := KString "form" |};
                 payload := a1 |})
    as [pushed [_ [_ Hset]]].
  destruct (Hset eq_refl) as [_ [Hconfig [_ Hsees]]].
  split; [reflexivity|].
  split; [reflexivity|].
  split; [exact Hconfig|].
  split; [exact Hsees|].
  split; reflexivity.
Defined.

(** * Further properties of the sources *)

(** ** Invariants of a connected session *)

Section InvariantFacts.
Context `{JsRuntime}.
Variable r : Revision.
Variable P : Store (Act_in r) -> Prop.
Hypothesis P_act : forall a s, P s -> P (run_act_in r a s).
Hypothesis P_called : forall cb args s, P s -> P (observe (Called cb args) s).
Hypothesis P_set_config : forall c s, P s -> P (with_sdk (set_config c) s).
Hypothesis P_height : forall h s, P s -> P (setHeight h s).
Hypothesis P_dom : forall f s, P s -> P (with_dom f s).

Lemma receive_inv e s : P s -> P (receive (run_act_in r) e s).
Proof.
  apply (@receive_rel _ (run_act_in r) (fun s s' => P s -> P s')); auto.
Qed.

Lemma on_resize_inv s : P s -> P (on_resize_in r s).
Proof.
  destruct r; simpl; unfold Legacy.on_resize, Revised.on_resize;
    destruct (current_body _); auto.
Qed.

Lemma notify_inv (l : list bool) s :
  P s -> P (fold_left (fun s (o : bool) => if o then on_resize_in r s else s) l s).
Proof.
  revert s; induction l as [|[|] l IH]; intros s Hs; simpl; auto.
  apply IH, on_resize_inv, Hs.
Qed.

Lemma enableAutoResize_inv s :
  P s ->
  match enableAutoResize_in r s with
  | inl _ => True
  | inr (s', _) => P s'
  end.
Proof.
  intros Hs.
  destruct r; simpl; unfold Legacy.enableAutoResize, Revised.enableAutoResize;
    match goal with
    | |- context [document ?d] => destruct (document d) as [|[[[rect|]]|]]
    end; trivial; apply P_height, P_dom, Hs.
Qed.

Lemma step_inv s t : P s -> P (step_in r s t).
Proof.
  intros Hs.
  pose proof (@enableAutoResize_inv s Hs) as Hauto.
  pose proof notify_inv as Hnotify.
  pose proof receive_inv as Hreceive.
  destruct r; simpl in *; destruct t as [a| |i|e|rect]; simpl.
  all: try (apply P_act; exact Hs); try (apply P_dom; exact Hs).
  all: try (apply Hreceive; exact Hs).
  all: try (match goal with
            | |- P (match ?x with inl _ => _ | inr _ => _ end) =>
                destruct x as [|[]]; [exact Hs | exact Hauto]
            end).
  all: destruct (current_body _); [|exact Hs];
    unfold Legacy.notify_observers, Revised.notify_observers;
    apply Hnotify, P_dom, Hs.
Qed.

Lemma run_inv steps s : P s -> P (run_in r steps s).
Proof.
  assert (Hfold : forall steps s, P s -> P (fold_left (step_in r) steps s)).
  { intros l; induction l as [|t l IH]; intros s0 Hs; simpl; [exact Hs|].
    apply IH, step_inv, Hs. }
  destruct r; apply Hfold.
Qed.
End InvariantFacts.

(** ** What the constructor seeds *)

(** X1.  Right after [createSDK] the local configuration is never a falsy
    value: it is the host's [model.config] when that is truthy and the empty
    object otherwise (absent, [null], [false], [0], [NaN] or the empty
    string). *)
Theorem initial_config_defaults_to_empty_object
  (r : Revision) (savable : bool) (host : Model) (d : Dom) :
  let s := createSDK_in r savable host d in
  truthy (getConfig s) = true
  /\ (truthy (model_config host) = true -> getConfig s = model_config host)
  /\ (truthy (model_config host) = false -> getConfig s = VObj []).
Proof.
  destruct r; cbv zeta; unfold getConfig; simpl;
    destruct (truthy (model_config host)) eqn:Ht;
    (split; [assumption || reflexivity|]); split; intros; congruence.
Qed.

Lemma initial_config_defaults_to_empty_object_witness :
  let absent := {| model_config := VUndefined; model_editMode := VBool false;
                   model_code := VStr "template" |} in
  (truthy (model_config example_host) = true /\ truthy (model_config absent) = false)
  /\ getConfig (createSDK_in revised true example_host example_dom) = a1b2
  /\ getConfig (createSDK_in legacy true absent example_dom) = VObj [].
Proof.
  cbv zeta; split; [split; reflexivity|]; split.
  - apply (initial_config_defaults_to_empty_object revised true example_host example_dom).
    reflexivity.
  - apply (initial_config_defaults_to_empty_object legacy true
             {| model_config := VUndefined; model_editMode := VBool false;
                model_code := VStr "template" |} example_dom).
    reflexivity.
Defined.

(** ** Nothing is ever taken back *)


Section Growth.
Context `{JsRuntime}.
Variable r : Revision.



Lemma run_appends_watchers steps s : grown_on watchers_of s (run_in r steps s).
Proof.
  apply (run_rel r (grown_on watchers_of) (@grown_by_refl _ _ _ _) (@grown_by_trans _ _ _ _)
           (act_watchers (frame_ok_in r)) (fun _ => True)); trivial.
  - intros e s' _.
    apply (@receive_rel _ (run_act_in r) (grown_on watchers_of));
      [apply grown_by_refl | apply grown_by_trans | apply (act_watchers (frame_ok_in r)) | | ];
      intros; unchanged.
  - intros; unchanged.
  - intros; unchanged.
Qed.
End Growth.


(** X3.  In both revisions a registration is for good: no step of a session
    removes or reorders a handler pushed by [on] or a watcher pushed by
    [onConfigUpdate]; later registrations come after it. *)
Theorem registrations_are_never_removed
  `{JsRuntime} (r : Revision) (s : Store (Act_in r)) (steps : list (Step_in r))
  (eventName fieldKey : string) (handler watcher : Callback (Act_in r)) :
  (exists later,
      handlers_of (run_in r steps (on eventName fieldKey handler s))
      = handlers_of s ++ FieldWatcher eventName fieldKey handler :: later)
  /\ (exists later,
         watchers_of (run_in r steps (onConfigUpdate watcher s))
         = watchers_of s ++ watcher :: later).
Proof.
  split.
  - destruct (run_pushes_field_watchers r steps (on eventName fieldKey handler s))
      as [later [E _]].
    exists later; rewrite E; unfold on, handlers_of; simpl.
    now rewrite <- app_assoc.
  - destruct (run_appends_watchers r steps (onConfigUpdate watcher s)) as [later [E _]].
    exists later; rewrite E; unfold onConfigUpdate, watchers_of; simpl.
    now rewrite <- app_assoc.
Qed.

(** ** Who is called in a dispatch *)

Section DispatchCalls.
Context `{JsRuntime}.
Variable r : Revision.
Implicit Types s : Store (Act_in r).

Let without_argument (c : nat * list JsValue) : Prop := snd c = [].
Let calls_of s := calls (log_of s).

Lemma fieldWatcher_calls ev k h e s :
  grown_by without_argument calls_of s (fieldWatcher (run_act_in r) ev k h e s).
Proof.
  unfold fieldWatcher; destruct (_ && _); [|apply grown_by_refl].
  exists [(cb_id h, [])]; split; [|repeat constructor].
  apply call_calls, frame_ok_in.
Qed.

Lemma fold_field_watchers_calls e (l : list (EventHandler (Act_in r))) s :
  Forall is_field_watcher l ->
  grown_by without_argument calls_of s
           (fold_left (fun s h => invoke (run_act_in r) h e s) l s).
Proof.
  revert s; induction l as [|h l IH]; intros s Hl; simpl; [apply grown_by_refl|].
  inversion Hl as [|h' l' Hh Hl']; subst.
  eapply grown_by_trans; [|apply IH, Hl'].
  destruct h as [|ev k f]; [contradiction|apply fieldWatcher_calls].
Qed.

Lemma fold_other_event_calls e (l : list (EventHandler (Act_in r))) s :
  event e <> "set-config" ->
  grown_by without_argument calls_of s
           (fold_left (fun s h => invoke (run_act_in r) h e s) l s).
Proof.
  intros He; revert s; induction l as [|h l IH]; intros s; simpl; [apply grown_by_refl|].
  eapply grown_by_trans; [|apply IH].
  destruct h as [|ev k f]; simpl.
  - rewrite (stateUpdater_ignores (run_act_in r) e s He); apply grown_by_refl.
  - apply fieldWatcher_calls.
Qed.

Lemma invoke_deaf h e s : deaf_to e h -> invoke (run_act_in r) h e s = s.
Proof.
  destruct h as [|ev k f]; simpl; intros Hd.
  - now apply stateUpdater_ignores.
  - unfold fieldWatcher; destruct (_ && _) eqn:Hc; [|reflexivity].
    apply fieldWatcher_condition in Hc; contradiction.
Qed.

Lemma fold_deaf e (l : list (EventHandler (Act_in r))) s :
  Forall (deaf_to e) l -> fold_left (fun s h => invoke (run_act_in r) h e s) l s = s.
Proof.
  induction 1 as [|h l Hh Hl IH]; simpl; [reflexivity|].
  now rewrite (invoke_deaf h e s Hh).
Qed.
End DispatchCalls.

(** X4.  In a session of either revision, one dispatch of [set-config] calls
    each watcher that was registered when the dispatch began exactly once,
    in registration order, with the payload, before any handler of [on];
    every other call made in that dispatch is a call without argument, so a
    watcher registered while the dispatch runs is not called in it. *)
Theorem watchers_called_once_per_set_config
  `{JsRuntime} (r : Revision) (savable : bool) (host : Model) (d : Dom)
  (steps : list (Step_in r)) (e : DashboardEvent) :
  let s := run_in r steps (createSDK_in r savable host d) in
  event e = "set-config" ->
  exists by_on,
    calls (log_of (receive (run_act_in r) e s))
    = calls (log_of s)
      ++ map (fun w => (cb_id w, [payload e])) (watchers_of s)
      ++ by_on
    /\ Forall (fun c => snd c = []) by_on.
Proof.
  intros s He.
  destruct (session_handlers r savable host d steps) as [fws [Hh Hf]].
  destruct (receive_after_stateUpdater r e _ Hh He) as [Hrun _].
  destruct (@fold_field_watchers_calls _ r e fws
              (stateUpdater (run_act_in r) e s) Hf) as [by_on [Hcalls Hargs]].
  exists by_on; split; [|exact Hargs].
  fold s in Hrun; rewrite Hrun, Hcalls.
  now rewrite (stateUpdater_calls r e s He), <- app_assoc.
Qed.

Lemma watchers_called_once_per_set_config_witness :
  let run_act := @Revised.run_act example_runtime in
  let registers := {| cb_id := 4;
                      cb_body := [Revised.OnConfigUpdate RevisedExample.cb2] |} in
  let s := on "set-config" "form" RevisedExample.cb3
              (onConfigUpdate registers RevisedExample.session) in
  let e := {| event := "set-config"; field := Some {| key := KString "form" |};
              payload := a1 |} in
  event e = "set-config"
  /\ (exists by_on,
         calls (log_of (receive run_act e s)) = [(4, [a1])] ++ by_on
         /\ Forall (fun c => snd c = []) by_on)
  /\ calls (log_of (receive run_act e s)) = [(4, [a1]); (3, [])]
  /\ calls (log_of (receive run_act e (receive run_act e s)))
     = [(4, [a1]); (3, []); (4, [a1]); (2, [a1]); (3, [])].
Proof.
  cbv zeta; split; [reflexivity|].
  destruct (@watchers_called_once_per_set_config example_runtime revised
              true example_host example_dom
              [Revised.Call (Revised.OnConfigUpdate
                               {| cb_id := 4;
                                  cb_body := [Revised.OnConfigUpdate RevisedExample.cb2] |});
               Revised.Call (Revised.On "set-config" "form" RevisedExample.cb3)]
              {| event := "set-config"; field := Some {| key := KString "form" |};
                 payload := a1 |} eq_refl) as [by_on [Hcalls Hargs]].
  split; [exists by_on; split; [exact Hcalls | exact Hargs]|].
  split; reflexivity.
Defined.

(** X5.  In both revisions a dispatch of any event other than [set-config]
    calls no watcher, however many are registered: every client function it
    calls is called without argument, as [on] calls its handlers. *)
Theorem other_events_call_no_watcher
  `{JsRuntime} (r : Revision) (s : Store (Act_in r)) (e : DashboardEvent) :
  event e <> "set-config" ->
  exists by_on,
    calls (log_of (receive (run_act_in r) e s)) = calls (log_of s) ++ by_on
    /\ Forall (fun c => snd c = []) by_on.
Proof.
  intros He.
  rewrite (receive_snapshot (frame_ok_in r)).
  exact (fold_other_event_calls r e (handlers_of s) s He).
Qed.

Lemma other_events_call_no_watcher_witness :
  let run_act := @Revised.run_act example_runtime in
  let s := on "click" "my_button" RevisedExample.cb3
              (onConfigUpdate RevisedExample.cb2 RevisedExample.session) in
  event (click "my_button") <> "set-config"
  /\ exists by_on,
      calls (log_of (receive run_act (click "my_button") s)) = calls (log_of s) ++ by_on
      /\ Forall (fun c => snd c = []) by_on.
Proof.
  cbv zeta.
  assert (Hne : event (click "my_button") <> "set-config") by discriminate.
  split; [exact Hne|].
  exact (@other_events_call_no_watcher example_runtime revised
           (on "click" "my_button" RevisedExample.cb3
               (onConfigUpdate RevisedExample.cb2 RevisedExample.session))
           (click "my_button") Hne).
Defined.

(** X6.  In both revisions an event that no handler on the bus is
    registered for is dropped without a trace: when it is not [set-config]
    and matches no registration of [on], and in particular when it is not
    [set-config] and its field is null, the dispatch leaves the whole store
    as it was (nothing emitted, nothing called, no error). *)
Theorem unmatched_event_is_dropped
  `{JsRuntime} (r : Revision) (s : Store (Act_in r)) (e : DashboardEvent) :
  (Forall (deaf_to e) (handlers_of s) -> receive (run_act_in r) e s = s)
  /\ (event e <> "set-config" -> field e = None -> receive (run_act_in r) e s = s).
Proof.
  split.
  - intros Hd; rewrite (receive_snapshot (frame_ok_in r)).
    now apply fold_deaf.
  - intros He Hf; rewrite (receive_snapshot (frame_ok_in r)).
    apply fold_deaf, Forall_forall; intros [|ev k h] _; simpl; [exact He|].
    intros [_ [f [Hsome _]]]; congruence.
Qed.

Lemma unmatched_event_is_dropped_witness :
  let run_act := @Revised.run_act example_runtime in
  let s := on "click" "my_button" RevisedExample.cb3 RevisedExample.session in
  let e := {| event := "click"; field := None; payload := VNull |} in
  (event e <> "set-config" /\ field e = None)
  /\ Forall (deaf_to (click "other")) (handlers_of s)
  /\ receive run_act e s = s
  /\ receive run_act (click "other") s = s.
Proof.
  cbv zeta.
  assert (Hne : "click" <> "set-config") by discriminate.
  assert (Hdeaf : Forall (deaf_to (click "other"))
                    (handlers_of (on "click" "my_button" RevisedExample.cb3
                                     RevisedExample.session))).
  { repeat constructor; simpl; [exact Hne|].
    intros [_ [f [Hf Hk]]]; injection Hf as <-; discriminate Hk. }
  split; [split; [exact Hne | reflexivity]|].
  split; [exact Hdeaf|]; split.
  - apply (proj2 (@unmatched_event_is_dropped example_runtime revised
                    (on "click" "my_button" RevisedExample.cb3 RevisedExample.session)
                    {| event := "click"; field := None; payload := VNull |}));
      [exact Hne | reflexivity].
  - apply (proj1 (@unmatched_event_is_dropped example_runtime revised
                    (on "click" "my_button" RevisedExample.cb3 RevisedExample.session)
                    (click "other"))); exact Hdeaf.
Defined.

(** ** Turning auto-resize off again *)

Lemma disconnect_last (l l' : list bool) (o : bool) :
  disconnect (List.length l) (l ++ o :: l') = l ++ false :: l'.
Proof. induction l as [|x l IH]; simpl; [reflexivity | now rewrite IH]. Qed.

Lemma disconnect_idempotent (i : nat) (l : list bool) :
  disconnect i (disconnect i l) = disconnect i l.
Proof.
  revert i; induction l as [|x l IH]; intros [|i]; simpl; try reflexivity.
  now rewrite IH.
Qed.

Section CleanUpFacts.
Context `{JsRuntime}.
Variable r : Revision.
Implicit Types s : Store (Act_in r).

Lemma enableAutoResize_success s s' i :
  enableAutoResize_in r s = inr (s', i) ->
  exists rect,
    current_body (dom (snd s)) = Some rect
    /\ s' = setHeight (calculateHeight_in r rect) (with_dom new_observer s)
    /\ i = List.length (observers (dom (snd s))).
Proof.
  unfold current_body.
  destruct r; simpl; unfold Legacy.enableAutoResize, Revised.enableAutoResize;
    match goal with
    | |- context [document ?d] => destruct (document d) as [|[[[rect|]]|]]
    end; intros Hr; try discriminate Hr;
    injection Hr as <- <-; exists rect; repeat split.
Qed.

Lemma step_cleanup s i :
  step_in r s (CleanUp_in r i)
  = with_dom (fun d => {| document := document d;
                          observers := disconnect i (observers d) |}) s.
Proof. destruct r; reflexivity. Qed.

Lemma box_change_reports s rect next :
  current_body (dom (snd s)) = Some rect ->
  emitted_of (step_in r s (BoxChange_in r next))
  = emitted_of s
    ++ map (fun _ => ("set-height",
                      Some (VStr (Number_toString (calculateHeight_in r next)))))
           (observing s).
Proof.
  intros Hb.
  assert (Hsome : current_body (dom (snd s)) <> None) by (rewrite Hb; discriminate).
  destruct (relayout_body next (dom (snd s)) Hsome) as [Hnext Hobs].
  pose proof (@notify_reports _ (on_resize_in r) _ next
                (fun s0 => @on_resize_reports _ r s0 next)
                (observers (dom (snd s))) (with_dom (relayout next) s) Hnext) as Hn.
  unfold observing.
  destruct r; simpl in *; rewrite Hb;
    unfold Legacy.notify_observers, Revised.notify_observers; simpl;
    rewrite Hobs; exact Hn.
Qed.
End CleanUpFacts.

(** X7.  In both revisions a successful [enableAutoResize()] starts exactly
    one more observer, and the function it returns stops exactly that one:
    after the clean-up the observers that report are those that reported
    before the call, so a later change of the body box is reported by them
    and by no other, and calling the clean-up function again changes
    nothing. *)
Theorem cleanup_stops_only_its_observer
  `{JsRuntime} (r : Revision) (s s' : Store (Act_in r)) (observer : nat) (next : DOMRect) :
  enableAutoResize_in r s = inr (s', observer) ->
  let cleaned := step_in r s' (CleanUp_in r observer) in
  observing s' = observing s ++ [true]
  /\ observing cleaned = observing s
  /\ emitted_of (step_in r cleaned (BoxChange_in r next))
     = emitted_of s'
       ++ map (fun _ => ("set-height",
                         Some (VStr (Number_toString (calculateHeight_in r next)))))
              (observing s)
  /\ step_in r cleaned (CleanUp_in r observer) = cleaned.
Proof.
  intros Hok cleaned.
  destruct (enableAutoResize_success r s Hok) as [rect [Hb [-> ->]]].
  assert (Hcleaned : observing cleaned = observing s).
  { unfold cleaned; rewrite step_cleanup; unfold observing; simpl.
    rewrite (disconnect_last (observers (dom (snd s))) [] true).
    rewrite filter_app; simpl; now rewrite app_nil_r. }
  split; [|split; [exact Hcleaned|split]].
  - unfold observing; simpl; now rewrite filter_app.
  - rewrite (box_change_reports r cleaned (rect := rect) next).
    + rewrite Hcleaned; unfold cleaned; now rewrite step_cleanup.
    + unfold cleaned; rewrite step_cleanup; exact Hb.
  - unfold cleaned; rewrite !step_cleanup; unfold with_dom; simpl.
    now rewrite disconnect_idempotent.
Qed.

Lemma cleanup_stops_only_its_observer_witness :
  let s := RevisedExample.session in
  let s' := @Revised.step example_runtime s Revised.EnableAutoResize in
  let cleaned := @Revised.step example_runtime s' (Revised.CleanUp 0) in
  @Revised.enableAutoResize example_runtime s = inr (s', 0)
  /\ observing s' = [true]
  /\ observing cleaned = []
  /\ emitted_of (@Revised.step example_runtime cleaned
                   (Revised.BoxChange {| y := 8; height := 50 |}))
     = [("set-height", Some (VStr "120"))]
  /\ emitted_of (@Revised.step example_runtime s'
                   (Revised.BoxChange {| y := 8; height := 50 |}))
     = [("set-height", Some (VStr "120")); ("set-height", Some (VStr "66"))].
Proof.
  cbv zeta; split; [reflexivity|].
  destruct (@cleanup_stops_only_its_observer example_runtime revised
              RevisedExample.session
              (@Revised.step example_runtime RevisedExample.session
                 Revised.EnableAutoResize)
              0 {| y := 8; height := 50 |} eq_refl) as [Hon [Hoff [Hquiet _]]].
  split; [exact Hon|]; split; [exact Hoff|]; split; [exact Hquiet | reflexivity].
Defined.

(** ** What a session sends *)

Ltac sends_one :=
  unfold parent_emit, emitted_of, editMode_of in *; simpl in *;
  repeat match goal with
         | He : editMode _ = false |- _ => rewrite He; simpl
         end;
  rewrite ?forallb_app, ?Forall_app; simpl;
  try match goal with
      | Hw : forallb _ _ = true |- _ => rewrite Hw; reflexivity
      end;
  repeat split; intuition auto;
  try (repeat constructor; simpl; discriminate).

Section Outbound.
Context `{JsRuntime}.

Lemma never_saved_run steps s : never_saved s -> never_saved (run_in revised steps s).
Proof.
  apply (run_inv revised never_saved); unfold never_saved.
  - intros a s0 [He Hf]; destruct a; simpl;
      unfold Revised.save, Revised.setConfig, Revised.setExternalId, Revised.setSavable,
             setHeight, setSchema, on, onConfigUpdate, observe;
      sends_one.
  - intros cb args s0; sends_one.
  - intros c s0; sends_one.
  - intros h s0; unfold setHeight; sends_one.
  - intros f s0; sends_one.
Qed.

Lemma well_formed_run r steps s : well_formed r s -> well_formed r (run_in r steps s).
Proof.
  apply (run_inv r (well_formed r)); unfold well_formed.
  - intros a s0 Hw; destruct r; destruct a; simpl;
      unfold Revised.save, Revised.setConfig, Revised.setExternalId, Revised.setSavable,
             Legacy.setConfig, setHeight, setSchema, on, onConfigUpdate, observe;
      try destruct (negb _); sends_one.
  - intros cb args s0 Hw; sends_one.
  - intros c s0 Hw; sends_one.
  - intros h s0 Hw; unfold setHeight; destruct r; sends_one.
  - intros f s0 Hw; sends_one.
Qed.
End Outbound.

(** X8.  In the revised source a session whose host did not report edit
    mode (a falsy [model.editMode]) never sends a message named [save],
    whatever the application calls and whatever the host delivers. *)
Theorem no_save_outside_edit_mode
  `{JsRuntime} (savable : bool) (host : Model) (d : Dom)
  (steps : list (Step_in revised)) (data : option JsValue) :
  truthy (model_editMode host) = false ->
  ~ In ("save", data)
       (emitted_of (run_in revised steps (createSDK_in revised savable host d))).
Proof.
  intros Hedit Hin.
  assert (Hstart : never_saved (createSDK_in revised savable host d)).
  { split; [exact Hedit | constructor]. }
  destruct (never_saved_run steps Hstart) as [_ Hnone].
  rewrite Forall_forall in Hnone.
  now apply (Hnone _ Hin).
Qed.

Lemma no_save_outside_edit_mode_witness :
  let creating := {| model_config := a1; model_editMode := VUndefined;
                     model_code := VStr "template" |} in
  let steps := [Revised.Call Revised.Save;
                Revised.Call (Revised.SetConfig a1b2);
                Revised.Call (Revised.On "click" "my_button"
                                {| cb_id := 5; cb_body := [Revised.Save] |});
                Revised.Receive (click "my_button")] in
  truthy (model_editMode creating) = false
  /\ ~ In ("save", None)
          (emitted_of (@run_in example_runtime revised steps
                         (createSDK_in revised true creating example_dom)))
  /\ emitted_of (@run_in example_runtime revised steps
                   (createSDK_in revised true creating example_dom))
     = [("update-config", Some a1b2)]
  /\ emitted_of (@run_in example_runtime revised steps
                   (createSDK_in revised true example_host example_dom))
     = [("save", None); ("update-config", Some a1b2); ("save", None)].
Proof.
  cbv zeta; split; [reflexivity|]; split; [|split; reflexivity].
  apply (@no_save_outside_edit_mode example_runtime true
           {| model_config := a1; model_editMode := VUndefined;
              model_code := VStr "template" |} example_dom).
  reflexivity.
Defined.

(** X9.  A session sends no message outside its revision's vocabulary.  In
    the revised source every message is [set-height] with a string,
    [update-config], [set-schema], [set-external-id] with a string or
    [set-savable] with a boolean, each with a datum, or [save] without one;
    in the legacy source every message is [set-height] with a string, [save]
    or [set-schema], each with a datum. *)
Theorem only_protocol_messages_are_sent
  `{JsRuntime} (r : Revision) (savable : bool) (host : Model) (d : Dom)
  (steps : list (Step_in r)) :
  forallb (message_in r) (emitted_of (run_in r steps (createSDK_in r savable host d)))
  = true.
Proof.
  apply (@well_formed_run _ r steps).
  destruct r; reflexivity.
Qed.

(** The vocabularies differ: neither revision's messages pass for the other's. *)
Example vocabularies_differ :
  message_in revised ("save", Some a1) = false
  /\ message_in revised ("set-height", Some (VNum 120)) = false
  /\ message_in legacy ("save", None) = false
  /\ message_in legacy ("update-config", Some a1) = false
  /\ message_in legacy ("set-savable", Some (VBool true)) = false.
Proof. repeat split. Qed.

(** ** What never changes *)

Lemma act_keeps_handshake `{JsRuntime} (r : Revision) a (s : Store (Act_in r)) :
  same_on handshake_of s (run_act_in r a s).
Proof.
  destruct r; destruct a; simpl; unfold Revised.save; try destruct (negb _); reflexivity.
Qed.

(** X10.  What the session took from the handshake stays as the constructor
    left it through every step: the host's [model] is never written to, the
    [savable] flag given to Postmate stays the one passed to [createSDK],
    and [template] is [model.code] in the revised source (the legacy class
    has no such field). *)
Theorem handshake_data_is_fixed
  `{JsRuntime} (r : Revision) (savable : bool) (host : Model) (d : Dom)
  (steps : list (Step_in r)) :
  handshake_of (run_in r steps (createSDK_in r savable host d))
  = (match r with legacy => VUndefined | revised => model_code host end,
     host,
     match r with legacy => None | revised => Some savable end).
Proof.
  transitivity (handshake_of (createSDK_in r savable host d)); [|destruct r; reflexivity].
  apply (run_rel r (same_on handshake_of) (@same_on_refl _ _ _) (@same_on_trans _ _ _)
           (act_keeps_handshake r) (fun _ => True)); trivial.
  - intros e s' _.
    apply (@receive_rel _ (run_act_in r) (same_on handshake_of));
      [apply same_on_refl | apply same_on_trans | apply act_keeps_handshake | | ];
      intros; reflexivity.
  - intros; reflexivity.
  - intros; reflexivity.
Qed.

(** ** Schema field types *)

(** X11.  The eleven members of [SchemaFieldTypes] are pairwise distinct
    strings at run time, so the [type] tag of a schema item tells its
    variant. *)
Theorem SchemaFieldTypes_values_are_distinct (t1 t2 : SchemaFieldTypes) :
  SchemaFieldTypes_value t1 = SchemaFieldTypes_value t2 -> t1 = t2.
Proof. destruct t1, t2; simpl; intros E; try reflexivity; discriminate E. Qed.

Lemma SchemaFieldTypes_values_are_distinct_witness :
  SchemaFieldTypes_value Password = SchemaFieldTypes_value Password
  /\ Password = Password.
Proof.
  split; [reflexivity|].
  apply SchemaFieldTypes_values_are_distinct; reflexivity.
Defined.

(** ** The mirror follows the host *)

Section Mirror.
Context `{JsRuntime}.
Variable r : Revision.
Implicit Types s : Store (Act_in r).

Lemma run_one s t : run_in r [t] s = step_in r s t.
Proof. destruct r; reflexivity. Qed.

Lemma run_cons s t steps : run_in r (t :: steps) s = run_in r steps (step_in r s t).
Proof. destruct r; reflexivity. Qed.

Lemma step_config s t rest :
  handlers_of s = StateUpdater :: rest ->
  getConfig (step_in r s t)
  = match pushed_config r t with Some c => c | None => getConfig s end.
Proof.
  intros Hh; unfold pushed_config.
  destruct (received r t) as [e|] eqn:Ht.
  - assert (Hstep : step_in r s t = receive (run_act_in r) e s).
    { destruct r; destruct t; simpl in Ht; try discriminate Ht;
        injection Ht as ->; reflexivity. }
    rewrite Hstep.
    destruct (String.eqb_spec (event e) "set-config") as [He|He].
    + destruct (receive_after_stateUpdater r e s Hh He) as [_ [Hc _]].
      unfold same_on in Hc; rewrite Hc.
      now apply stateUpdater_config.
    + now apply receive_keeps_config_unless.
  - rewrite <- run_one.
    apply run_keeps_config_unless.
    intros t' e [<-|[]] Hr; congruence.
Qed.

Lemma run_config steps s rest :
  handlers_of s = StateUpdater :: rest ->
  getConfig (run_in r steps s)
  = match last_push r steps with Some c => c | None => getConfig s end.
Proof.
  revert s rest; induction steps as [|t steps IH]; intros s rest Hh.
  - destruct r; reflexivity.
  - rewrite run_cons.
    destruct (run_pushes_field_watchers r [t] s) as [more [Hmore _]].
    rewrite run_one, Hh in Hmore; simpl in Hmore.
    rewrite (IH _ _ Hmore); simpl.
    destruct (last_push r steps); [reflexivity|].
    now apply step_config with rest.
Qed.
End Mirror.

(** X12.  In a session of either revision the local configuration is always
    the payload of the last [set-config] event the host delivered, and the
    configuration seeded by the constructor while none has been delivered:
    nothing the application calls, and no other event, changes it. *)
Theorem config_mirrors_last_push
  `{JsRuntime} (r : Revision) (savable : bool) (host : Model) (d : Dom)
  (steps : list (Step_in r)) :
  getConfig (run_in r steps (createSDK_in r savable host d))
  = match last_push r steps with
    | Some c => c
    | None => getConfig (createSDK_in r savable host d)
    end.
Proof.
  apply run_config with (rest := []).
  apply createSDK_handlers.
Qed.

(** Two pushes among other steps: the second one stands, [setConfig] and a
    click notwithstanding. *)
Example config_after_two_pushes :
  let steps := [Revised.Receive (set_config_to a1);
                Revised.Call (Revised.SetConfig a1b2);
                Revised.Receive (set_config_to VNull);
                Revised.Receive (click "my_button");
                Revised.Call Revised.Save] in
  last_push revised steps = Some VNull
  /\ getConfig (@run_in example_runtime revised steps RevisedExample.session) = VNull.
Proof. split; reflexivity. Qed.
